(** * The round-bounded tool-calling loop of [backend/ai_generator.py]

    A shallow embedding of [ToolCallState] and of
    [AIGenerator.generate_response], [_execute_tool_round] and
    [_make_final_response], with the properties the specification states
    about them.

    Python integers are [Z], Python strings are [string] (whose [length]
    counts the elements of the sequence), [Optional[...]] is [option], and
    the two collaborators the code calls into (the model backend
    [self.client.messages.create] and the tool manager's [execute_tool])
    are arbitrary state transformers over an abstract outside world that
    either return a value or raise. *)

From Stdlib Require Import ZArith List String Bool Lia.
From Equations Require Import Equations.
From Equations.Prop Require Import Logic.
Import ListNotations.

Open Scope string_scope.
Open Scope list_scope.
Open Scope Z_scope.

(** ** Exceptions and results *)

(** The exceptions an execution can end with: the two the interpreter
    raises on the code's own attribute and index accesses, and whatever a
    collaborator raises. *)
Inductive Exn : Type :=
| AttributeError
| IndexError
| Raised (what : string).

Inductive Result (A : Type) : Type :=
| Ok (a : A)
| Err (e : Exn).

Arguments Ok {A} a.
Arguments Err {A} e.

(** Truthiness of the Python values the code tests with [if x]. *)
Definition truthy_str (s : option string) : bool :=
  match s with
  | Some (String _ _) => true
  | _ => false
  end.

Definition truthy_list {A : Type} (l : option (list A)) : bool :=
  match l with
  | Some (_ :: _) => true
  | _ => false
  end.

Definition truthy_obj {A : Type} (o : option A) : bool :=
  match o with
  | Some _ => true
  | None => false
  end.

(** The line break the source writes as a backslash followed by n. *)
Definition newline : string := String (Ascii.ascii_of_nat 10) EmptyString.

(** [len(s)] *)
Definition len (s : string) : Z := Z.of_nat (String.length s).

(** ** The Round Tracker: [class ToolCallState] *)

Module ToolCallState.
Section Tracker.

(** [Dict[str, Any]]: the parameter mapping of a tool call.  The code
    only passes it along. *)
Variable Params : Type.

(** One entry of [tool_calls_made]. *)
Record call_record : Type := mk_call_record {
  round : Z;
  tool : string;
  params : Params;
  result_length : Z
}.

Record t : Type := mk {
  max_rounds : Z;
  current_round : Z;
  tool_calls_made : list call_record
}.

(** [__init__(self, max_rounds)] *)
Definition init (max_rounds : Z) : t :=
  {| max_rounds := max_rounds; current_round := 0; tool_calls_made := [] |}.

Definition can_make_more_calls (self : t) : bool :=
  current_round self <? max_rounds self.

Definition increment_round (self : t) : t :=
  {| max_rounds := max_rounds self;
     current_round := current_round self + 1;
     tool_calls_made := tool_calls_made self |}.

(** [add_tool_call(self, tool_name, params, result)]; [result] may be
    [None]. *)
Definition add_tool_call (self : t) (tool_name : string) (ps : Params)
    (result : option string) : t :=
  {| max_rounds := max_rounds self;
     current_round := current_round self;
     tool_calls_made :=
       tool_calls_made self ++
         [ {| round := current_round self;
              tool := tool_name;
              params := ps;
              result_length :=
                if truthy_str result
                then match result with Some s => len s | None => 0 end
                else 0 |} ] |}.

End Tracker.

Arguments mk {Params}.
Arguments mk_call_record {Params}.
Arguments round {Params}.
Arguments tool {Params}.
Arguments params {Params}.
Arguments result_length {Params}.
Arguments max_rounds {Params}.
Arguments current_round {Params}.
Arguments tool_calls_made {Params}.
Arguments init {Params}.
Arguments can_make_more_calls {Params}.
Arguments increment_round {Params}.
Arguments add_tool_call {Params}.

End ToolCallState.

(** ** Messages, requests and responses *)

Section Orchestrator.

(** [Params] is [Dict[str, Any]], the input of a tool-use block; [ToolDef]
    is the type of the entries of the [tools] list handed to
    [generate_response]; [World] is the state of everything outside the
    generator: the backend and the tool registry. *)
Context {Params ToolDef World : Type}.
(** The class constant [AIGenerator.SYSTEM_PROMPT] (a fixed text, lines
    33-78 of the source). *)
Variable SYSTEM_PROMPT : string.

(** A content block of a backend response: [block.type] is ["text"] or
    ["tool_use"]; only a text block has [.text], only a tool-use block has
    [.id], [.name] and [.input]. *)
Inductive ContentBlock : Type :=
| TextBlock (text : string)
| ToolUseBlock (id : string) (name : string) (input : Params).

Definition is_tool_use (b : ContentBlock) : bool :=
  match b with
  | ToolUseBlock _ _ _ => true
  | TextBlock _ => false
  end.

(** [{"type": "tool_result", "tool_use_id": ..., "content": ...}] *)
Record ToolResultBlock : Type := mk_tool_result {
  tool_use_id : string;
  result_content : option string
}.

Inductive Role : Type := user | assistant.

Inductive MessageContent : Type :=
| Text (s : string)
| Blocks (bs : list ContentBlock)
| ToolResults (rs : list ToolResultBlock).

(** [{"role": ..., "content": ...}] *)
Record Message : Type := mk_message {
  role : Role;
  message_content : MessageContent
}.

(** What [messages.create] returns. *)
Record Response : Type := mk_response {
  stop_reason : string;
  content : list ContentBlock
}.

(** [{"type": ...}] *)
Record ToolChoice : Type := mk_tool_choice { choice_type : string }.

(** The keyword arguments of [messages.create]; a key the code does not
    set is [None]. *)
Record Request : Type := mk_request {
  req_model : string;
  temperature : Z;
  max_tokens : Z;
  messages : list Message;
  system : string;
  tools : option (list ToolDef);
  tool_choice : option ToolChoice
}.

(** ** Collaborators *)

(** [self.client.messages.create], called with the request's entries as
    keyword arguments. *)
Definition Client : Type := Request -> World -> Result Response * World.

(** [tool_manager.execute_tool], called with the block's name and its input
    as keyword arguments; the text it returns may be empty or [None]. *)
Record ToolManager : Type := mk_tool_manager {
  execute_tool : string -> Params -> World -> Result (option string) * World
}.

(** [self.base_params] *)
Record BaseParams : Type := mk_base_params {
  bp_model : string;
  bp_temperature : Z;
  bp_max_tokens : Z
}.

Record AIGenerator : Type := mk_generator {
  client : Client;
  model : string;
  base_params : BaseParams
}.

(** [AIGenerator.__init__]; the client object it builds from the API key
    is passed in. *)
Definition AIGenerator_init (c : Client) (model : string) : AIGenerator :=
  {| client := c;
     model := model;
     base_params :=
       {| bp_model := model; bp_temperature := 0; bp_max_tokens := 800 |} |}.

(** ** Execution state *)

(** What an execution did to the outside world, in order.  The log is
    not a variable of the program; it records the calls the program
    makes so that properties about them can be stated.  A backend call
    is logged with the place that made it: the call in the body of the
    loop (line 136) or the one of [_make_final_response] (line 230). *)
Inductive Site : Type := in_loop | final_call.

Inductive Event : Type :=
| BackendCall (site : Site) (req : Request) (res : Result Response)
| ToolCall (name : string) (input : Params) (res : Result (option string)).

Record St : Type := mk_st {
  world : World;
  tool_state : ToolCallState.t Params;
  log : list Event
}.

(** Computations that read and write the state and may raise; the state
    reached when an exception is raised is kept. *)
Definition M (A : Type) : Type := St -> Result A * St.

Definition ret {A : Type} (a : A) : M A := fun st => (Ok a, st).

Definition raise {A : Type} (e : Exn) : M A := fun st => (Err e, st).

Definition bind {A B : Type} (m : M A) (k : A -> M B) : M B :=
  fun st =>
    match m st with
    | (Ok a, st') => k a st'
    | (Err e, st') => (Err e, st')
    end.

Notation "x <- m ;; k" := (bind m (fun x => k))
  (at level 100, m at next level, right associativity).
Notation "m ;;; k" := (bind m (fun _ => k))
  (at level 100, right associativity).

Definition modify_tool_state
    (f : ToolCallState.t Params -> ToolCallState.t Params) : M unit :=
  fun st =>
    (Ok tt, {| world := world st;
               tool_state := f (tool_state st);
               log := log st |}).

(** A call of the backend. *)
Definition messages_create (self : AIGenerator) (site : Site)
    (req : Request) : M Response :=
  fun st =>
    let (res, w) := client self req (world st) in
    (res, {| world := w;
             tool_state := tool_state st;
             log := log st ++ [BackendCall site req res] |}).

(** A call of [tool_manager.execute_tool]; on [None] the attribute access
    raises before anything is called. *)
Definition call_execute_tool (tool_manager : option ToolManager)
    (name : string) (input : Params) : M (option string) :=
  match tool_manager with
  | None => raise AttributeError
  | Some tm =>
      fun st =>
        let (res, w) := execute_tool tm name input (world st) in
        (res, {| world := w;
                 tool_state := tool_state st;
                 log := log st ++ [ToolCall name input res] |})
  end.

(** [response.content[0].text] *)
Definition first_text (response : Response) : Result string :=
  match content response with
  | [] => Err IndexError
  | TextBlock text :: _ => Ok text
  | ToolUseBlock _ _ _ :: _ => Err AttributeError
  end.

Definition lift {A : Type} (r : Result A) : M A := fun st => (r, st).

(** ** [AIGenerator._execute_tool_round] *)

(** The [for content_block in response.content] loop, with its two local
    variables [tool_results] and [tools_executed]. *)
Fixpoint for_content_blocks (tool_manager : option ToolManager)
    (blocks : list ContentBlock) (tool_results : list ToolResultBlock)
    (tools_executed : bool) : M (list ToolResultBlock * bool) :=
  match blocks with
  | [] => ret (tool_results, tools_executed)
  | TextBlock _ :: rest =>
      for_content_blocks tool_manager rest tool_results tools_executed
  | ToolUseBlock id name input :: rest =>
      tool_result <- call_execute_tool tool_manager name input ;;
      modify_tool_state
        (fun ts => ToolCallState.add_tool_call ts name input tool_result) ;;;
      for_content_blocks tool_manager rest
        (tool_results ++ [ {| tool_use_id := id;
                              result_content := tool_result |} ])
        true
  end.

Definition _execute_tool_round (response : Response)
    (messages : list Message) (tool_manager : option ToolManager)
    : M (list Message * bool) :=
  let updated_messages :=
    messages ++ [ {| role := assistant;
                     message_content := Blocks (content response) |} ] in
  r <- for_content_blocks tool_manager (content response) [] false ;;
  let (tool_results, tools_executed) := r in
  let updated_messages :=
    match tool_results with
    | _ :: _ => updated_messages ++ [ {| role := user;
                                         message_content := ToolResults tool_results |} ]
    | [] => updated_messages
    end in
  ret (updated_messages, tools_executed).

(** ** [AIGenerator._make_final_response] *)

Definition final_params (self : AIGenerator) (messages : list Message)
    (system_content : string) : Request :=
  {| req_model := bp_model (base_params self);
     temperature := bp_temperature (base_params self);
     max_tokens := bp_max_tokens (base_params self);
     messages := messages;
     system := system_content;
     tools := None;
     tool_choice := None |}.

Definition _make_final_response (self : AIGenerator)
    (messages : list Message) (system_content : string) : M string :=
  final_response <- messages_create self final_call
                      (final_params self messages system_content) ;;
  lift (first_text final_response).


(** ** [AIGenerator.generate_response] *)

(** The request built at the top of the loop body. *)
Definition api_params (self : AIGenerator) (messages : list Message)
    (system_content : string) (tools : option (list ToolDef))
    (tool_manager : option ToolManager) : Request :=
  if truthy_list tools && truthy_obj tool_manager
  then {| req_model := bp_model (base_params self);
          temperature := bp_temperature (base_params self);
          max_tokens := bp_max_tokens (base_params self);
          messages := messages;
          system := system_content;
          tools := tools;
          tool_choice := Some {| choice_type := "auto" |} |}
  else {| req_model := bp_model (base_params self);
          temperature := bp_temperature (base_params self);
          max_tokens := bp_max_tokens (base_params self);
          messages := messages;
          system := system_content;
          tools := None;
          tool_choice := None |}.

(** How one pass through the body of the [while] loop ends: by falling
    off its end, by [break], or by [return]. *)
Inductive Control : Type :=
| Continue (messages : list Message)
| Break (messages : list Message)
| Return (text : string).

Definition loop_body (self : AIGenerator) (system_content : string)
    (tools : option (list ToolDef)) (tool_manager : option ToolManager)
    (messages : list Message) : M Control :=
  response <- messages_create self in_loop
                (api_params self messages system_content tools tool_manager) ;;
  if String.eqb (stop_reason response) "tool_use"
  then
    r <- _execute_tool_round response messages tool_manager ;;
    let (messages, tools_executed) := r in
    if negb tools_executed
    then ret (Break messages)
    else
      modify_tool_state ToolCallState.increment_round ;;;
      ret (Continue messages)
  else
    text <- lift (first_text response) ;;
    ret (Return text).

(** The rounds the tracker still allows; the [while] loop terminates
    because every pass that continues uses one up. *)
Definition rounds_left (st : St) : nat :=
  Z.to_nat (ToolCallState.max_rounds (tool_state st)
            - ToolCallState.current_round (tool_state st)).

Lemma for_content_blocks_rounds tool_manager blocks :
  forall tool_results tools_executed st r st',
    for_content_blocks tool_manager blocks tool_results tools_executed st = (r, st') ->
    ToolCallState.max_rounds (tool_state st') = ToolCallState.max_rounds (tool_state st) /\
    ToolCallState.current_round (tool_state st') = ToolCallState.current_round (tool_state st).
Proof.
  induction blocks as [|b rest IH]; intros trs te st r st' H.
  - inversion H; subst. split; reflexivity.
  - destruct b as [text | id name input]; cbn [for_content_blocks] in H.
    + eapply IH; eassumption.
    + unfold bind in H.
      destruct tool_manager as [tm|]; cbn in H.
      * destruct (execute_tool tm name input (world st)) as [[res|e] w] eqn:E.
        -- apply IH in H. cbn in H. exact H.
        -- inversion H; subst. split; reflexivity.
      * inversion H; subst. split; reflexivity.
Qed.

Lemma loop_body_continue self system_content tools tool_manager messages st m' st' :
  loop_body self system_content tools tool_manager messages st = (Ok (Continue m'), st') ->
  ToolCallState.max_rounds (tool_state st') = ToolCallState.max_rounds (tool_state st) /\
  ToolCallState.current_round (tool_state st')
    = ToolCallState.current_round (tool_state st) + 1.
Proof.
  unfold loop_body, bind, messages_create, _execute_tool_round, lift, ret.
  destruct (client self _ (world st)) as [[response|e] w]; [|discriminate].
  destruct (String.eqb (stop_reason response) "tool_use").
  - unfold bind.
    match goal with
    | |- context [for_content_blocks ?tm ?bs ?trs ?te ?s] =>
        destruct (for_content_blocks tm bs trs te s) as [[[trs' te']|e] st1] eqn:E
    end; [|discriminate].
    apply for_content_blocks_rounds in E. cbn in E.
    destruct te'; cbn; [|discriminate].
    intros H; inversion H; subst; cbn. destruct E as [-> ->]. split; reflexivity.
  - destruct (first_text response); discriminate.
Qed.

(** The [while tool_state.can_make_more_calls()] loop followed by the
    final call the code makes when the loop is left without [return]. *)
Equations while_loop (self : AIGenerator) (system_content : string)
    (tools : option (list ToolDef)) (tool_manager : option ToolManager)
    (messages : list Message) (st : St) : Result string * St
    by wf (rounds_left st) lt :=
while_loop self system_content tools tool_manager messages st
  with inspect (ToolCallState.can_make_more_calls (tool_state st)) := {
  | exist _ false _ => _make_final_response self messages system_content st
  | exist _ true Hc
      with inspect (loop_body self system_content tools tool_manager messages st) := {
      | exist _ (Ok (Continue messages'), st') Hb =>
          while_loop self system_content tools tool_manager messages' st'
      | exist _ (Ok (Break messages'), st') _ =>
          _make_final_response self messages' system_content st'
      | exist _ (Ok (Return text), st') _ => (Ok text, st')
      | exist _ (Err e, st') _ => (Err e, st') } }.
Next Obligation.
  apply loop_body_continue in Hb. destruct Hb as [Hmax Hcur].
  unfold rounds_left, ToolCallState.can_make_more_calls in *.
  rewrite Hmax, Hcur. apply Z.ltb_lt in Hc. lia.
Qed.

(** The system content built at lines 111-115. *)
Definition build_system_content (conversation_history : option string) : string :=
  if truthy_str conversation_history
  then match conversation_history with
       | Some h =>
           (SYSTEM_PROMPT ++ newline ++ newline ++ "Previous conversation:"
              ++ newline ++ h)%string
       | None => SYSTEM_PROMPT
       end
  else SYSTEM_PROMPT.

(** The message list of line 118. *)
Definition initial_messages (query : string) : list Message :=
  [ {| role := user; message_content := Text query |} ].

(** The state in which the loop is entered: a fresh tracker, nothing
    logged yet. *)
Definition initial_state (max_tool_rounds : Z) (w : World) : St :=
  {| world := w; tool_state := ToolCallState.init max_tool_rounds; log := [] |}.

Definition generate_response (self : AIGenerator) (query : string)
    (conversation_history : option string) (tools : option (list ToolDef))
    (tool_manager : option ToolManager) (max_tool_rounds : Z)
    (w : World) : Result string * St :=
  let system_content := build_system_content conversation_history in
  let messages := initial_messages query in
  while_loop self system_content tools tool_manager messages
    (initial_state max_tool_rounds w).

(** ** Observations on the log and the transcript *)

(** The invocation ids of the tool-use blocks of a response, in the order
    of the blocks. *)
Fixpoint tool_use_ids (blocks : list ContentBlock) : list string :=
  match blocks with
  | [] => []
  | TextBlock _ :: rest => tool_use_ids rest
  | ToolUseBlock id _ _ :: rest => id :: tool_use_ids rest
  end.

(** A tool execution that returned. *)
Definition ok_tool_call (e : Event) : Prop :=
  match e with
  | ToolCall _ _ (Ok _) => True
  | _ => False
  end.

(** The number of backend calls in a log. *)
Fixpoint backend_calls (l : list Event) : nat :=
  match l with
  | [] => 0
  | BackendCall _ _ _ :: rest => S (backend_calls rest)
  | ToolCall _ _ _ :: rest => backend_calls rest
  end.

(** The number of tool executions a log starts with. *)
Fixpoint leading_tool_calls (l : list Event) : nat :=
  match l with
  | ToolCall _ _ _ :: rest => S (leading_tool_calls rest)
  | _ => 0
  end.

(** For every backend call of a log, in order, the number of tool
    executions between it and the next backend call. *)
Fixpoint tools_per_call (l : list Event) : list nat :=
  match l with
  | [] => []
  | BackendCall _ _ _ :: rest => leading_tool_calls rest :: tools_per_call rest
  | ToolCall _ _ _ :: rest => tools_per_call rest
  end.

(** The responses the backend returned, in order ([None] where it
    raised). *)
Fixpoint backend_responses (l : list Event) : list (option Response) :=
  match l with
  | [] => []
  | BackendCall _ _ (Ok r) :: rest => Some r :: backend_responses rest
  | BackendCall _ _ (Err _) :: rest => None :: backend_responses rest
  | ToolCall _ _ _ :: rest => backend_responses rest
  end.

Definition requested_tools (r : option Response) : Prop :=
  match r with
  | Some r => stop_reason r = "tool_use"
  | None => False
  end.

(** The length [add_tool_call] stores for a result. *)
Definition stored_length (result : option string) : Z :=
  match result with
  | Some s => len s
  | None => 0
  end.

(** Tool name, parameters and stored result length of the tool executions
    of a log that returned, in order. *)
Fixpoint executed (l : list Event) : list (string * Params * Z) :=
  match l with
  | [] => []
  | ToolCall name input (Ok result) :: rest =>
      (name, input, stored_length result) :: executed rest
  | _ :: rest => executed rest
  end.

Definition call_key (c : ToolCallState.call_record Params) : string * Params * Z :=
  (ToolCallState.tool c, ToolCallState.params c, ToolCallState.result_length c).

(** The tool-result blocks of a round: the values the executions at the
    front of [evs] returned, each tagged with the id of the block it
    answers. *)
Fixpoint round_results (ids : list string) (evs : list Event)
    : list ToolResultBlock :=
  match ids, evs with
  | id :: ids', ToolCall _ _ (Ok result) :: evs' =>
      {| tool_use_id := id; result_content := result |} :: round_results ids' evs'
  | _, _ => []
  end.

Definition assistant_message (response : Response) : Message :=
  {| role := assistant; message_content := Blocks (content response) |}.

Definition tool_result_message (results : list ToolResultBlock) : Message :=
  {| role := user; message_content := ToolResults results |}.

(** The Transcript as the specification describes it, read off the log:
    for every tool round, one assistant message with the content blocks the
    model returned and one user message with the results of that round's
    tool executions. *)
Fixpoint spec_round_messages (l : list Event) : list Message :=
  match l with
  | [] => []
  | BackendCall _ _ (Ok r) :: rest =>
      assistant_message r
        :: tool_result_message (round_results (tool_use_ids (content r)) rest)
        :: spec_round_messages rest
  | _ :: rest => spec_round_messages rest
  end.

(** ... seeded with a single user message holding the raw query. *)
Definition spec_transcript (query : string) (l : list Event) : list Message :=
  {| role := user; message_content := Text query |} :: spec_round_messages l.

(** Whether the tool executions a log starts with all returned. *)
Fixpoint all_returned (l : list Event) : bool :=
  match l with
  | ToolCall _ _ (Ok _) :: rest => all_returned rest
  | ToolCall _ _ (Err _) :: _ => false
  | _ => true
  end.

(** The number of rounds of a log that completed with at least one tool
    executed: the backend calls that are followed, before the next backend
    call, by at least one tool execution, all of which returned. *)
Fixpoint completed_rounds (l : list Event) : nat :=
  match l with
  | [] => 0
  | BackendCall _ _ _ :: rest =>
      ((if (0 <? leading_tool_calls rest)%nat && all_returned rest
        then 1 else 0) + completed_rounds rest)%nat
  | ToolCall _ _ _ :: rest => completed_rounds rest
  end.

Lemma tool_use_ids_length (blocks : list ContentBlock) :
  List.length (tool_use_ids blocks)
    = List.length (filter is_tool_use blocks).
Proof.
  induction blocks as [|[text|id name input] rest IH]; cbn; auto.
Qed.

(** ** The rounds of one run *)

Section Run.

Variable self : AIGenerator.
Variable system_content : string.
Variable tools : option (list ToolDef).
Variable tool_manager : option ToolManager.

(** The states in which the condition of the [while] loop is evaluated,
    starting from [messages0] and [st0]: the first one, and the one
    reached each time the body falls off its end. *)
Inductive loop_head (messages0 : list Message) (st0 : St)
    : list Message -> St -> Prop :=
| head_first : loop_head messages0 st0 messages0 st0
| head_next messages st messages' st' :
    loop_head messages0 st0 messages st ->
    ToolCallState.can_make_more_calls (tool_state st) = true ->
    loop_body self system_content tools tool_manager messages st
      = (Ok (Continue messages'), st') ->
    loop_head messages0 st0 messages' st'.

(** What one pass through the body does, case by case. *)
Inductive round_outcome (messages : list Message) (st : St)
    : Result Control -> St -> Prop :=
| ro_backend_error e w' :
    client self (api_params self messages system_content tools tool_manager)
      (world st) = (Err e, w') ->
    round_outcome messages st (Err e)
      {| world := w'; tool_state := tool_state st;
         log := log st ++ [BackendCall in_loop
                  (api_params self messages system_content tools tool_manager)
                  (Err e)] |}
| ro_answer r w' :
    client self (api_params self messages system_content tools tool_manager)
      (world st) = (Ok r, w') ->
    stop_reason r <> "tool_use" ->
    round_outcome messages st
      (match first_text r with Ok text => Ok (Return text) | Err e => Err e end)
      {| world := w'; tool_state := tool_state st;
         log := log st ++ [BackendCall in_loop
                  (api_params self messages system_content tools tool_manager)
                  (Ok r)] |}
| ro_no_blocks r w' :
    client self (api_params self messages system_content tools tool_manager)
      (world st) = (Ok r, w') ->
    stop_reason r = "tool_use" ->
    tool_use_ids (content r) = [] ->
    round_outcome messages st
      (Ok (Break (messages ++ [assistant_message r])))
      {| world := w'; tool_state := tool_state st;
         log := log st ++ [BackendCall in_loop
                  (api_params self messages system_content tools tool_manager)
                  (Ok r)] |}
| ro_tools r w' evs st' :
    client self (api_params self messages system_content tools tool_manager)
      (world st) = (Ok r, w') ->
    stop_reason r = "tool_use" ->
    tool_use_ids (content r) <> [] ->
    Forall ok_tool_call evs ->
    List.length evs = List.length (tool_use_ids (content r)) ->
    log st' = log st ++ BackendCall in_loop
                (api_params self messages system_content tools tool_manager)
                (Ok r) :: evs ->
    ToolCallState.max_rounds (tool_state st')
      = ToolCallState.max_rounds (tool_state st) ->
    ToolCallState.current_round (tool_state st')
      = ToolCallState.current_round (tool_state st) + 1 ->
    map call_key (ToolCallState.tool_calls_made (tool_state st'))
      = map call_key (ToolCallState.tool_calls_made (tool_state st))
          ++ executed evs ->
    round_outcome messages st
      (Ok (Continue
             (messages ++
                [assistant_message r;
                 tool_result_message
                   (round_results (tool_use_ids (content r)) evs)])))
      st'
| ro_no_manager r w' :
    client self (api_params self messages system_content tools tool_manager)
      (world st) = (Ok r, w') ->
    stop_reason r = "tool_use" ->
    tool_use_ids (content r) <> [] ->
    tool_manager = None ->
    round_outcome messages st (Err AttributeError)
      {| world := w'; tool_state := tool_state st;
         log := log st ++ [BackendCall in_loop
                  (api_params self messages system_content tools tool_manager)
                  (Ok r)] |}
| ro_tool_error r w' evs name input e st' :
    client self (api_params self messages system_content tools tool_manager)
      (world st) = (Ok r, w') ->
    stop_reason r = "tool_use" ->
    Forall ok_tool_call evs ->
    log st' = log st ++ BackendCall in_loop
                (api_params self messages system_content tools tool_manager)
                (Ok r) :: evs ++ [ToolCall name input (Err e)] ->
    ToolCallState.max_rounds (tool_state st')
      = ToolCallState.max_rounds (tool_state st) ->
    ToolCallState.current_round (tool_state st')
      = ToolCallState.current_round (tool_state st) ->
    map call_key (ToolCallState.tool_calls_made (tool_state st'))
      = map call_key (ToolCallState.tool_calls_made (tool_state st))
          ++ executed evs ->
    round_outcome messages st (Err e) st'.

(** *** Unfolding the loop *)

Lemma while_loop_exit messages st :
  ToolCallState.can_make_more_calls (tool_state st) = false ->
  while_loop self system_content tools tool_manager messages st
    = _make_final_response self messages system_content st.
Proof.
  intros Hc.
  funelim (while_loop self system_content tools tool_manager messages st);
    try congruence.
Qed.

Lemma while_loop_step messages st :
  ToolCallState.can_make_more_calls (tool_state st) = true ->
  while_loop self system_content tools tool_manager messages st
    = match loop_body self system_content tools tool_manager messages st with
      | (Ok (Continue messages'), st') =>
          while_loop self system_content tools tool_manager messages' st'
      | (Ok (Break messages'), st') =>
          _make_final_response self messages' system_content st'
      | (Ok (Return text), st') => (Ok text, st')
      | (Err e, st') => (Err e, st')
      end.
Proof.
  intros Hc.
  funelim (while_loop self system_content tools tool_manager messages st);
    try congruence;
    match goal with
    | E : loop_body _ _ _ _ _ _ = _ |- _ => rewrite E
    end; reflexivity.
Qed.

(** *** The [for] loop over the content blocks *)

Lemma stored_length_add (result : option string) :
  (if truthy_str result
   then match result with Some s => len s | None => 0 end
   else 0) = stored_length result.
Proof. destruct result as [[|c s]|]; reflexivity. Qed.

Lemma for_content_blocks_no_tool_use blocks :
  tool_use_ids blocks = [] ->
  forall tool_results tools_executed st,
    for_content_blocks tool_manager blocks tool_results tools_executed st
      = (Ok (tool_results, tools_executed), st).
Proof.
  induction blocks as [|[text|id name input] rest IH]; intros Hids trs te st.
  - reflexivity.
  - cbn [for_content_blocks]. apply IH. exact Hids.
  - discriminate.
Qed.

Lemma for_content_blocks_spec blocks :
  forall tool_results tools_executed st r st',
    for_content_blocks tool_manager blocks tool_results tools_executed st = (r, st') ->
    match r with
    | Ok (tool_results', tools_executed') =>
        exists evs,
          Forall ok_tool_call evs /\
          List.length evs = List.length (tool_use_ids blocks) /\
          log st' = log st ++ evs /\
          map call_key (ToolCallState.tool_calls_made (tool_state st'))
            = map call_key (ToolCallState.tool_calls_made (tool_state st))
                ++ executed evs /\
          tool_results'
            = tool_results ++ round_results (tool_use_ids blocks) evs /\
          tools_executed'
            = (tools_executed
               || match tool_use_ids blocks with [] => false | _ :: _ => true end)
    | Err e =>
        (tool_manager = None /\ tool_use_ids blocks <> [] /\
         e = AttributeError /\ st' = st) \/
        (exists evs name input,
           Forall ok_tool_call evs /\
           log st' = log st ++ evs ++ [ToolCall name input (Err e)] /\
           map call_key (ToolCallState.tool_calls_made (tool_state st'))
             = map call_key (ToolCallState.tool_calls_made (tool_state st))
                 ++ executed evs)
    end.
Proof.
  induction blocks as [|[text|id name input] rest IH]; intros trs te st r st' H.
  - inversion H; subst. exists []. cbn.
    rewrite !app_nil_r, orb_false_r. repeat split; constructor.
  - cbn [for_content_blocks tool_use_ids] in *. eapply IH; eassumption.
  - cbn [for_content_blocks tool_use_ids] in *. unfold bind in H.
    destruct tool_manager as [tm|] eqn:Etm; cbn in H.
    + destruct (execute_tool tm name input (world st)) as [[res|e] w] eqn:E.
      * apply IH in H. cbn [log tool_state] in H.
        destruct r as [[trs' te']|e].
        -- destruct H as (evs & Hok & Hlen & Hlog & Hrec & Htrs & Hte).
           exists (ToolCall name input (Ok res) :: evs). repeat split.
           ++ constructor; [exact I | exact Hok].
           ++ cbn. f_equal. exact Hlen.
           ++ rewrite Hlog, <- app_assoc. reflexivity.
           ++ rewrite Hrec. cbn [ToolCallState.add_tool_call ToolCallState.tool_calls_made].
              rewrite map_app, <- app_assoc. cbn [map app executed].
              unfold call_key at 3. cbn. rewrite stored_length_add. reflexivity.
           ++ rewrite Htrs, <- app_assoc. reflexivity.
           ++ rewrite Hte. destruct te; reflexivity.
        -- destruct H as [(Hnone & _) | (evs & n & i & Hok & Hlog & Hrec)];
             [discriminate|].
           right. exists (ToolCall name input (Ok res) :: evs), n, i. repeat split.
           ++ constructor; [exact I | exact Hok].
           ++ rewrite Hlog, <- app_assoc. reflexivity.
           ++ rewrite Hrec. cbn [ToolCallState.add_tool_call ToolCallState.tool_calls_made].
              rewrite map_app, <- app_assoc. cbn [map app executed].
              unfold call_key at 3. cbn. rewrite stored_length_add. reflexivity.
      * inversion H; subst. right. exists [], name, input. cbn.
        rewrite app_nil_r. repeat split. constructor.
    + inversion H; subst. left. repeat split. discriminate.
Qed.

Lemma round_results_ids ids :
  forall evs,
    Forall ok_tool_call evs ->
    List.length evs = List.length ids ->
    map tool_use_id (round_results ids evs) = ids.
Proof.
  induction ids as [|id ids IH]; intros evs Hok Hlen.
  - reflexivity.
  - destruct evs as [|ev evs]; [discriminate|].
    inversion Hok as [|? ? Hev Hrest]; subst.
    destruct ev as [s rq rs|name input [result|e]]; try contradiction.
    cbn. f_equal. apply IH; [exact Hrest | now inversion Hlen].
Qed.

(** *** One pass through the body *)

Lemma loop_body_outcome messages st c st' :
  loop_body self system_content tools tool_manager messages st = (c, st') ->
  round_outcome messages st c st'.
Proof.
  unfold loop_body, bind, messages_create.
  destruct (client self _ (world st)) as [[r|e] w'] eqn:Ecall.
  2:{ intros H; inversion H; subst. now apply ro_backend_error. }
  destruct (String.eqb (stop_reason r) "tool_use") eqn:Estop.
  - apply String.eqb_eq in Estop. unfold _execute_tool_round, bind.
    destruct (tool_use_ids (content r)) as [|id ids] eqn:Eids.
    + rewrite (for_content_blocks_no_tool_use _ Eids). cbn.
      intros H; inversion H; subst. now apply ro_no_blocks.
    + match goal with
      | |- context [for_content_blocks ?tm ?bs ?trs ?te ?s] =>
          destruct (for_content_blocks tm bs trs te s) as [[[trs' te']|e] st1] eqn:E
      end;
        pose proof (for_content_blocks_rounds _ _ _ _ _ _ _ E) as [Hmax Hcur];
        apply for_content_blocks_spec in E; cbn [log tool_state world] in *.
      * destruct E as (evs & Hok & Hlen & Hlog & Hrec & Htrs & Hte).
        rewrite Eids in Hte, Htrs, Hlen. cbn [app orb] in Hte, Htrs. subst te' trs'.
        pose proof (round_results_ids (id :: ids) evs Hok Hlen) as Hmap.
        destruct (round_results (id :: ids) evs) as [|tr trs] eqn:Eres;
          [discriminate|].
        cbn. intros H; inversion H; subst. rewrite <- app_assoc. cbn [app].
        change {| role := assistant; message_content := Blocks (content r) |}
          with (assistant_message r).
        change {| role := user; message_content := ToolResults (tr :: trs) |}
          with (tool_result_message (tr :: trs)).
        rewrite <- Eres, <- Eids in *.
        eapply ro_tools; try eassumption; cbn.
        -- rewrite Eids. discriminate.
        -- rewrite Hlog, <- app_assoc. reflexivity.
        -- rewrite Hcur. reflexivity.
      * intros H; inversion H; subst.
        destruct E as [(Hnone & _ & -> & ->) | (evs & n & i & Hok & Hlog & Hrec)].
        -- apply ro_no_manager; try assumption. rewrite Eids. discriminate.
        -- eapply ro_tool_error; try eassumption.
           rewrite Hlog, <- app_assoc. reflexivity.
  - apply String.eqb_neq in Estop. unfold lift, ret.
    intros H.
    replace c with (match first_text r with
                    | Ok text => Ok (Return text)
                    | Err e => @Err Control e
                    end) by (destruct (first_text r); now inversion H).
    replace st' with {| world := w'; tool_state := tool_state st;
                        log := log st ++ [BackendCall in_loop
                          (api_params self messages system_content tools tool_manager)
                          (Ok r)] |}
      by (destruct (first_text r); now inversion H).
    now apply ro_answer.
Qed.

Lemma rounds_left_decreases messages st messages' st' :
  ToolCallState.can_make_more_calls (tool_state st) = true ->
  loop_body self system_content tools tool_manager messages st
    = (Ok (Continue messages'), st') ->
  (rounds_left st' < rounds_left st)%nat.
Proof.
  intros Hc Hb. apply loop_body_continue in Hb. destruct Hb as [Hmax Hcur].
  unfold rounds_left, ToolCallState.can_make_more_calls in *.
  rewrite Hmax, Hcur. apply Z.ltb_lt in Hc. lia.
Qed.

(** *** How a run ends *)

(** The four ways out of the loop, each from a state in which its
    condition was evaluated. *)
Inductive run_end (messages0 : list Message) (st0 : St)
    : Result string * St -> Prop :=
| end_ceiling messages st :
    loop_head messages0 st0 messages st ->
    ToolCallState.can_make_more_calls (tool_state st) = false ->
    run_end messages0 st0 (_make_final_response self messages system_content st)
| end_break messages st messages' st' :
    loop_head messages0 st0 messages st ->
    ToolCallState.can_make_more_calls (tool_state st) = true ->
    loop_body self system_content tools tool_manager messages st
      = (Ok (Break messages'), st') ->
    run_end messages0 st0 (_make_final_response self messages' system_content st')
| end_return messages st text st' :
    loop_head messages0 st0 messages st ->
    ToolCallState.can_make_more_calls (tool_state st) = true ->
    loop_body self system_content tools tool_manager messages st
      = (Ok (Return text), st') ->
    run_end messages0 st0 (Ok text, st')
| end_raise messages st e st' :
    loop_head messages0 st0 messages st ->
    ToolCallState.can_make_more_calls (tool_state st) = true ->
    loop_body self system_content tools tool_manager messages st
      = (Err e, st') ->
    run_end messages0 st0 (Err e, st').

Lemma while_loop_from_head messages0 st0 :
  forall n messages st,
    rounds_left st = n ->
    loop_head messages0 st0 messages st ->
    while_loop self system_content tools tool_manager messages st
      = while_loop self system_content tools tool_manager messages0 st0 ->
    run_end messages0 st0
      (while_loop self system_content tools tool_manager messages0 st0).
Proof.
  induction n as [n IH] using lt_wf_ind. intros messages st Hn Hhead Heq.
  destruct (ToolCallState.can_make_more_calls (tool_state st)) eqn:Hc.
  - rewrite (while_loop_step _ _ Hc) in Heq.
    destruct (loop_body self system_content tools tool_manager messages st)
      as [[[m'|m'|text]|e] st'] eqn:Hb; rewrite <- Heq.
    + rewrite Heq.
      apply (IH (rounds_left st')) with (messages := m') (st := st').
      * subst n. eapply rounds_left_decreases; eassumption.
      * reflexivity.
      * eapply head_next; eassumption.
      * exact Heq.
    + eapply end_break; eassumption.
    + eapply end_return; eassumption.
    + eapply end_raise; eassumption.
  - rewrite <- Heq, (while_loop_exit _ _ Hc). now apply end_ceiling.
Qed.

Lemma while_loop_run_end messages0 st0 :
  run_end messages0 st0
    (while_loop self system_content tools tool_manager messages0 st0).
Proof.
  eapply while_loop_from_head; [reflexivity | apply head_first | reflexivity].
Qed.

(** A run is the same from each of its loop heads. *)
Lemma while_loop_at_head messages0 st0 messages st :
  loop_head messages0 st0 messages st ->
  while_loop self system_content tools tool_manager messages0 st0
    = while_loop self system_content tools tool_manager messages st.
Proof.
  induction 1 as [|m st1 m' st' Hhead IH Hc Hb].
  - reflexivity.
  - rewrite IH, (while_loop_step _ _ Hc), Hb. reflexivity.
Qed.

(** *** Observations on a log that grows at its end *)

Lemma backend_calls_app l l' :
  backend_calls (l ++ l') = (backend_calls l + backend_calls l')%nat.
Proof.
  induction l as [|[s rq rs|n i r] l IH]; cbn; [reflexivity| |]; now rewrite IH.
Qed.

Lemma backend_calls_tool_calls evs :
  Forall ok_tool_call evs -> backend_calls evs = 0%nat.
Proof.
  induction 1 as [|[s rq rs|n i r] evs Hev _ IH]; cbn; try contradiction; auto.
Qed.

Lemma executed_app l l' : executed (l ++ l') = executed l ++ executed l'.
Proof.
  induction l as [|[s rq rs|n i [r|e]] l IH]; cbn; [reflexivity| | |];
    now rewrite IH.
Qed.

Lemma backend_responses_app l l' :
  backend_responses (l ++ l') = backend_responses l ++ backend_responses l'.
Proof.
  induction l as [|[s rq [r|e]|n i r] l IH]; cbn; [reflexivity| | |];
    now rewrite IH.
Qed.

Lemma backend_responses_tool_calls evs :
  Forall ok_tool_call evs -> backend_responses evs = [].
Proof.
  induction 1 as [|[s rq rs|n i r] evs Hev _ IH]; cbn; try contradiction; auto.
Qed.

Lemma leading_tool_calls_before_backend l s rq rs l' :
  leading_tool_calls (l ++ BackendCall s rq rs :: l') = leading_tool_calls l.
Proof.
  induction l as [|[s' rq' rs'|n i r] l IH]; cbn; [reflexivity..|].
  now rewrite IH.
Qed.

Lemma tools_per_call_before_backend l s rq rs l' :
  tools_per_call (l ++ BackendCall s rq rs :: l')
    = tools_per_call l ++ tools_per_call (BackendCall s rq rs :: l').
Proof.
  induction l as [|[s' rq' rs'|n i r] l IH]; cbn [app tools_per_call].
  - reflexivity.
  - rewrite leading_tool_calls_before_backend, IH. reflexivity.
  - exact IH.
Qed.

Lemma tools_per_call_tool_calls evs :
  Forall ok_tool_call evs ->
  tools_per_call evs = [] /\ leading_tool_calls evs = List.length evs.
Proof.
  induction 1 as [|[s rq rs|n i r] evs Hev _ [IH1 IH2]]; cbn;
    try contradiction; auto.
Qed.

Lemma round_results_before_backend ids :
  forall l s rq rs l',
    round_results ids (l ++ BackendCall s rq rs :: l') = round_results ids l.
Proof.
  induction ids as [|id ids IH]; intros l s rq rs l'.
  - reflexivity.
  - destruct l as [|[s' rq' rs'|n i [r|e]] l]; cbn; try reflexivity.
    now rewrite IH.
Qed.

Lemma spec_round_messages_before_backend l s rq rs l' :
  spec_round_messages (l ++ BackendCall s rq rs :: l')
    = spec_round_messages l ++ spec_round_messages (BackendCall s rq rs :: l').
Proof.
  induction l as [|[s' rq' [r|e]|n i r] l IH]; cbn [app spec_round_messages];
    try assumption; try reflexivity.
  rewrite round_results_before_backend, IH. reflexivity.
Qed.

Lemma spec_round_messages_tool_calls evs :
  Forall ok_tool_call evs -> spec_round_messages evs = [].
Proof.
  induction 1 as [|[s rq rs|n i r] evs Hev _ IH]; cbn; try contradiction; auto.
Qed.

(** The round counter moves only when the body falls off its end. *)
Lemma loop_body_rounds messages st c st' :
  loop_body self system_content tools tool_manager messages st = (c, st') ->
  ToolCallState.max_rounds (tool_state st')
    = ToolCallState.max_rounds (tool_state st) /\
  ToolCallState.current_round (tool_state st')
    = match c with
      | Ok (Continue _) => ToolCallState.current_round (tool_state st) + 1
      | _ => ToolCallState.current_round (tool_state st)
      end.
Proof.
  intros Hb. apply loop_body_outcome in Hb.
  inversion Hb; subst; cbn; try (split; [reflexivity|]);
    try (destruct (first_text r) as [text|e']; reflexivity);
    try reflexivity; split; assumption.
Qed.

Lemma final_response_state messages st :
  exists res w',
    client self (final_params self messages system_content) (world st)
      = (res, w') /\
    _make_final_response self messages system_content st
      = (match res with Ok r => first_text r | Err e => Err e end,
         {| world := w'; tool_state := tool_state st;
            log := log st ++ [BackendCall final_call
                     (final_params self messages system_content) res] |}).
Proof.
  unfold _make_final_response, bind, messages_create, lift.
  destruct (client self _ (world st)) as [res w'] eqn:E.
  exists res, w'. split; [reflexivity|]. destruct res; reflexivity.
Qed.

(** *** Properties of every backend call of a log *)

(** [each_call P l]: every backend call of [l] satisfies [P], which is
    given the events logged before the call, the place of the call, the
    request and the answer. *)
Definition each_call
    (P : list Event -> Site -> Request -> Result Response -> Prop)
    (l : list Event) : Prop :=
  forall pre s rq rs post, l = pre ++ BackendCall s rq rs :: post -> P pre s rq rs.

Definition no_backend_call (l : list Event) : Prop :=
  forall s rq rs, ~ In (BackendCall s rq rs) l.

Lemma tool_calls_no_backend_call evs :
  Forall ok_tool_call evs -> no_backend_call evs.
Proof.
  intros Hok s rq rs Hin. rewrite Forall_forall in Hok.
  exact (Hok _ Hin).
Qed.

Lemma failed_round_no_backend_call evs name input e :
  Forall ok_tool_call evs ->
  no_backend_call (evs ++ [ToolCall name input (Err e)]).
Proof.
  intros Hok s rq rs Hin. apply in_app_or in Hin. destruct Hin as [Hin|[Hin|[]]].
  - exact (tool_calls_no_backend_call evs Hok _ _ _ Hin).
  - discriminate.
Qed.

Lemma each_call_app P l l2 :
  each_call P l ->
  (forall pre s rq rs post,
     l2 = pre ++ BackendCall s rq rs :: post -> P (l ++ pre) s rq rs) ->
  each_call P (l ++ l2).
Proof.
  intros H1 H2 pre s rq rs post E.
  apply app_eq_app in E. destruct E as [x [[E1 E2] | [E1 E2]]].
  - destruct x as [|e x].
    + cbn in E2. rewrite app_nil_r in E1. subst l.
      rewrite <- (app_nil_r pre). apply (H2 [] s rq rs post). now symmetry.
    + inversion E2; subst e post. apply (H1 pre s rq rs x). exact E1.
  - subst pre. apply (H2 x s rq rs post). exact E2.
Qed.

Lemma first_call_only (call : Event) evs pre s rq rs post :
  no_backend_call evs ->
  call :: evs = pre ++ BackendCall s rq rs :: post ->
  pre = [] /\ call = BackendCall s rq rs.
Proof.
  intros Hno E. destruct pre as [|e pre].
  - inversion E. split; reflexivity.
  - inversion E; subst. exfalso. apply (Hno s rq rs).
    apply in_or_app. right. left. reflexivity.
Qed.

Lemma each_call_round P l call evs :
  each_call P l ->
  no_backend_call evs ->
  (forall s rq rs, call = BackendCall s rq rs -> P l s rq rs) ->
  each_call P (l ++ call :: evs).
Proof.
  intros H1 Hno H2. apply each_call_app; [exact H1|].
  intros pre s rq rs post E.
  destruct (first_call_only _ _ _ _ _ _ _ Hno E) as [-> Hc].
  rewrite app_nil_r. now apply H2.
Qed.

Lemma Forall_firstn_app {A : Type} (P : A -> Prop) (n : nat) (l1 l2 : list A) :
  Forall P l1 ->
  Forall P (firstn (n - List.length l1) l2) ->
  Forall P (firstn n (l1 ++ l2)).
Proof.
  intros H1 H2. rewrite firstn_app. apply Forall_app. split; [|exact H2].
  rewrite Forall_forall in *. intros x Hx. apply H1.
  rewrite <- (firstn_skipn n l1). apply in_or_app. now left.
Qed.

(** *** The executions of one round *)

(** Name and input of the tool-use blocks of a response, in the order of
    the blocks. *)
Fixpoint tool_uses (blocks : list ContentBlock) : list (string * Params) :=
  match blocks with
  | [] => []
  | TextBlock _ :: rest => tool_uses rest
  | ToolUseBlock _ name input :: rest => (name, input) :: tool_uses rest
  end.

(** Name and input of the tool executions of a log, returned or not, in
    order. *)
Fixpoint invocations (l : list Event) : list (string * Params) :=
  match l with
  | [] => []
  | ToolCall name input _ :: rest => (name, input) :: invocations rest
  | BackendCall _ _ _ :: rest => invocations rest
  end.

Lemma for_content_blocks_invocations blocks :
  forall tool_results tools_executed st r st',
    for_content_blocks tool_manager blocks tool_results tools_executed st = (r, st') ->
    exists evs rest,
      log st' = log st ++ evs /\
      no_backend_call evs /\
      tool_uses blocks = invocations evs ++ rest /\
      (forall v, r = Ok v -> rest = []).
Proof.
  induction blocks as [|[text|id name input] rest IH]; intros trs te st r st' H.
  - inversion H; subst. exists [], []. rewrite app_nil_r.
    repeat split. intros s rq rs [].
  - cbn [for_content_blocks tool_uses] in *. eapply IH; eassumption.
  - cbn [for_content_blocks tool_uses] in *. unfold bind in H.
    destruct tool_manager as [tm|]; cbn in H.
    + destruct (execute_tool tm name input (world st)) as [[res|e] w] eqn:E.
      * apply IH in H. cbn [log] in H.
        destruct H as (evs & rest' & Hlog & Hno & Huses & Hok).
        exists (ToolCall name input (Ok res) :: evs), rest'. repeat split.
        -- rewrite Hlog, <- app_assoc. reflexivity.
        -- intros s rq rs [Hin|Hin]; [discriminate | exact (Hno _ _ _ Hin)].
        -- cbn. rewrite Huses. reflexivity.
        -- exact Hok.
      * inversion H; subst.
        exists [ToolCall name input (Err e)], (tool_uses rest). repeat split.
        -- intros s rq rs [Hin|[]]. discriminate.
        -- intros v Hv. discriminate.
    + inversion H; subst. exists [], ((name, input) :: tool_uses rest).
      rewrite app_nil_r. repeat split.
      * intros s rq rs [].
      * intros v Hv. discriminate.
Qed.

(** The records a round adds carry the round number of that moment. *)
Lemma for_content_blocks_record_rounds blocks :
  forall tool_results tools_executed st r st',
    for_content_blocks tool_manager blocks tool_results tools_executed st = (r, st') ->
    exists added,
      ToolCallState.tool_calls_made (tool_state st')
        = ToolCallState.tool_calls_made (tool_state st) ++ added /\
      Forall (fun c => ToolCallState.round c
                       = ToolCallState.current_round (tool_state st)) added.
Proof.
  induction blocks as [|[text|id name input] rest IH]; intros trs te st r st' H.
  - inversion H; subst. exists []. rewrite app_nil_r. split; constructor.
  - cbn [for_content_blocks] in *. eapply IH; eassumption.
  - cbn [for_content_blocks] in *. unfold bind in H.
    destruct tool_manager as [tm|]; cbn in H.
    + destruct (execute_tool tm name input (world st)) as [[res|e] w] eqn:E.
      * apply IH in H. cbn [tool_state ToolCallState.add_tool_call
                            ToolCallState.tool_calls_made
                            ToolCallState.current_round] in H.
        destruct H as (added & Hmade & Hrounds).
        eexists (_ :: added). split.
        -- rewrite Hmade, <- app_assoc. reflexivity.
        -- constructor; [reflexivity | exact Hrounds].
      * inversion H; subst. exists []. rewrite app_nil_r. split; constructor.
    + inversion H; subst. exists []. rewrite app_nil_r. split; constructor.
Qed.

(** Without a tool manager the loop over the blocks stops at the first
    tool-use block and changes nothing. *)
Lemma for_content_blocks_no_manager blocks :
  tool_manager = None ->
  forall tool_results tools_executed st,
    for_content_blocks tool_manager blocks tool_results tools_executed st
      = (match tool_use_ids blocks with
         | [] => Ok (tool_results, tools_executed)
         | _ :: _ => Err AttributeError
         end, st).
Proof.
  intros ->.
  induction blocks as [|[text|id name input] rest IH]; intros trs te st.
  - reflexivity.
  - cbn [for_content_blocks tool_use_ids]. apply IH.
  - reflexivity.
Qed.

Lemma each_call_impl (P Q : list Event -> Site -> Request -> Result Response -> Prop) l :
  (forall pre s rq rs, P pre s rq rs -> Q pre s rq rs) ->
  each_call P l -> each_call Q l.
Proof.
  intros HPQ HP pre s rq rs post E. apply HPQ. exact (HP _ _ _ _ _ E).
Qed.

Lemma messages_api_params (transcript : list Message) :
  messages (api_params self transcript system_content tools tool_manager)
    = transcript.
Proof.
  unfold api_params.
  destruct (truthy_list tools && truthy_obj tool_manager); reflexivity.
Qed.

(** What one pass through the body records. *)
Lemma loop_body_records (transcript : list Message) st c st' :
  loop_body self system_content tools tool_manager transcript st = (c, st') ->
  exists added,
    ToolCallState.tool_calls_made (tool_state st')
      = ToolCallState.tool_calls_made (tool_state st) ++ added /\
    Forall (fun rec => ToolCallState.round rec
                       = ToolCallState.current_round (tool_state st)) added.
Proof.
  unfold loop_body, bind, messages_create, _execute_tool_round, lift, ret.
  destruct (client self _ (world st)) as [[response|e] w].
  2:{ intros H; inversion H; subst. exists []. cbn. rewrite app_nil_r.
      split; constructor. }
  destruct (String.eqb (stop_reason response) "tool_use").
  - unfold bind.
    match goal with
    | |- context [for_content_blocks ?tm ?bs ?trs ?te ?s] =>
        destruct (for_content_blocks tm bs trs te s) as [[[trs' te']|e] st1] eqn:E
    end; apply for_content_blocks_record_rounds in E; cbn [tool_state] in E;
      destruct E as (added & Hmade & Hrounds).
    + destruct te'; cbn; intros H; inversion H; subst; cbn;
        exists added; split; assumption.
    + intros H; inversion H; subst. exists added. split; assumption.
  - destruct (first_text response); intros H; inversion H; subst;
      exists []; cbn; rewrite app_nil_r; split; constructor.
Qed.

(** Without a tool manager a pass through the body executes no tool,
    leaves the tracker alone and never falls off the end of the body; it
    raises when the response holds a tool-use block. *)
Lemma loop_body_no_manager (transcript : list Message) st c st' :
  tool_manager = None ->
  loop_body self system_content tools tool_manager transcript st = (c, st') ->
  tool_state st' = tool_state st /\
  (exists res w',
     client self (api_params self transcript system_content tools tool_manager)
       (world st) = (res, w') /\
     log st' = log st ++
       [BackendCall in_loop
          (api_params self transcript system_content tools tool_manager) res] /\
     forall response,
       res = Ok response ->
       stop_reason response = "tool_use" ->
       tool_use_ids (content response) <> [] ->
       c = Err AttributeError) /\
  (forall transcript', c <> Ok (Continue transcript')).
Proof.
  intros Hnone.
  unfold loop_body, bind, messages_create, _execute_tool_round, lift, ret.
  destruct (client self _ (world st)) as [[response|e] w] eqn:Ecall.
  2:{ intros H; inversion H; subst. cbn.
      split; [reflexivity|]. split; [|discriminate].
      eexists _, _. split; [reflexivity|]. split; [reflexivity|]. discriminate. }
  destruct (String.eqb (stop_reason response) "tool_use") eqn:Estop.
  - unfold bind. rewrite (for_content_blocks_no_manager _ Hnone).
    destruct (tool_use_ids (content response)) as [|id ids] eqn:Eids; cbn;
      intros H; inversion H; subst; cbn;
      (split; [reflexivity|]); (split; [|discriminate]);
      eexists _, _; (split; [reflexivity|]); (split; [reflexivity|]).
    + intros r Hr _ Hids. inversion Hr; subst. rewrite Eids in Hids.
      now contradiction Hids.
    + reflexivity.
  - apply String.eqb_neq in Estop.
    destruct (first_text response); intros H; inversion H; subst; cbn;
      (split; [reflexivity|]); (split; [|discriminate]);
      eexists _, _; (split; [reflexivity|]); (split; [reflexivity|]);
      intros r Hr Hs; inversion Hr; subst; contradiction.
Qed.

(** *** Completed rounds *)

Lemma all_returned_before_backend l s rq rs l' :
  all_returned (l ++ BackendCall s rq rs :: l') = all_returned l.
Proof.
  induction l as [|[s' rq' rs'|n i [v|e]] l IH]; cbn; auto.
Qed.

Lemma completed_rounds_before_backend l s rq rs l' :
  completed_rounds (l ++ BackendCall s rq rs :: l')
    = (completed_rounds l + completed_rounds (BackendCall s rq rs :: l'))%nat.
Proof.
  induction l as [|[s' rq' rs'|n i r] l IH]; cbn [app completed_rounds].
  - reflexivity.
  - rewrite leading_tool_calls_before_backend, all_returned_before_backend, IH.
    cbn [completed_rounds]. lia.
  - rewrite IH. cbn [completed_rounds]. reflexivity.
Qed.

Lemma completed_rounds_tool_calls evs :
  Forall ok_tool_call evs ->
  all_returned evs = true /\ completed_rounds evs = 0%nat.
Proof.
  induction 1 as [|[s rq rs|n i [v|e]] evs Hev _ [IH1 IH2]]; cbn;
    try contradiction; auto.
Qed.

Lemma completed_rounds_failed_round evs name input e :
  Forall ok_tool_call evs ->
  all_returned (evs ++ [ToolCall name input (Err e)]) = false /\
  completed_rounds (evs ++ [ToolCall name input (Err e)]) = 0%nat.
Proof.
  induction 1 as [|[s rq rs|n i [v|e']] evs Hev _ [IH1 IH2]]; cbn;
    try contradiction; auto.
Qed.

(** A pass through the body that executed at least one tool, all of them
    returning, falls off the end of the body. *)
Lemma loop_body_advances (transcript : list Message) st c st' call evs :
  loop_body self system_content tools tool_manager transcript st = (c, st') ->
  log st' = log st ++ call :: evs ->
  evs <> [] ->
  Forall ok_tool_call evs ->
  exists transcript', c = Ok (Continue transcript').
Proof.
  intros Hb Hlog Hne Hok. apply loop_body_outcome in Hb.
  inversion Hb as
    [ e w' Hcall
    | r w' Hcall Hstop Hres
    | r w' Hcall Hstop Hids
    | r w' evs0 st1 Hcall Hstop Hids Hok0 Hlen Hlog0 _ _ _
    | r w' Hcall Hstop Hids Hnone
    | r w' evs0 name input e st1 Hcall Hstop Hok0 Hlog0 _ _ _ ]; subst;
    try (cbn [log] in Hlog; apply app_inv_head in Hlog;
         inversion Hlog; subst; now contradiction Hne).
  - eexists. reflexivity.
  - rewrite Hlog0 in Hlog. apply app_inv_head in Hlog.
    inversion Hlog; subst. exfalso.
    apply Forall_app in Hok. destruct Hok as [_ Hlast].
    inversion Hlast as [|? ? Hbad _]. exact Hbad.
Qed.

(** *** The loop heads of [generate_response] *)

Section FromStart.

Variable query : string.
Variable max_tool_rounds : Z.
Variable w0 : World.

(** The log and the message list after some completed tool rounds: each
    round is a backend call made in the loop, with the message list of
    that moment, answered by a request for tools, followed by one returned
    execution per tool-use block. *)
Inductive rounds_log : list Event -> list Message -> Prop :=
| rounds_none : rounds_log [] (initial_messages query)
| rounds_more l messages r evs :
    rounds_log l messages ->
    stop_reason r = "tool_use" ->
    tool_use_ids (content r) <> [] ->
    Forall ok_tool_call evs ->
    List.length evs = List.length (tool_use_ids (content r)) ->
    rounds_log
      (l ++ BackendCall in_loop
              (api_params self messages system_content tools tool_manager)
              (Ok r) :: evs)
      (messages ++
         [assistant_message r;
          tool_result_message (round_results (tool_use_ids (content r)) evs)]).

Definition reachable_head (messages : list Message) (st : St) : Prop :=
  loop_head (initial_messages query) (initial_state max_tool_rounds w0)
    messages st.

Lemma head_facts messages st :
  reachable_head messages st ->
  rounds_log (log st) messages /\
  ToolCallState.max_rounds (tool_state st) = max_tool_rounds /\
  ToolCallState.current_round (tool_state st)
    = Z.of_nat (backend_calls (log st)) /\
  (ToolCallState.current_round (tool_state st) = 0 \/
   ToolCallState.current_round (tool_state st) <= max_tool_rounds) /\
  map call_key (ToolCallState.tool_calls_made (tool_state st))
    = executed (log st).
Proof.
  unfold reachable_head.
  induction 1 as [|m st m' st' Hhead IH Hc Hb].
  - cbn. repeat split; [constructor | now left].
  - destruct IH as (Hlog & Hmax & Hcur & Hle & Hrec).
    apply loop_body_outcome in Hb.
    inversion Hb as
      [ | r w' Hcall Hstop Hres
        | | r w' evs st1 Hcall Hstop Hids Hok Hlen Hlog' Hmax' Hcur' Hrec'
        | | ]; subst;
      try (destruct (first_text r); discriminate).
    unfold ToolCallState.can_make_more_calls in Hc. apply Z.ltb_lt in Hc.
    rewrite Hlog', Hmax', Hcur', Hrec', Hrec, Hcur.
    change (BackendCall in_loop
              (api_params self m system_content tools tool_manager) (Ok r) :: evs)
      with ([BackendCall in_loop
              (api_params self m system_content tools tool_manager) (Ok r)] ++ evs).
    rewrite !backend_calls_app, !executed_app,
      (backend_calls_tool_calls evs Hok). cbn [backend_calls executed app].
    repeat split.
    + now apply rounds_more.
    + lia.
    + right. lia.
Qed.

(** What [final_response.content[0].text] evaluates to for the answer of a
    backend call that may have raised. *)
Definition text_of (res : Result Response) : Result string :=
  match res with
  | Ok r => first_text r
  | Err e => Err e
  end.

(** The ways a run ends after its last loop head [(messages, st)], each
    with the result, the events logged after that head, and the tool
    executions recorded after it. *)
Inductive exit_shape (messages : list Message) (st : St)
    : Result string -> list Event -> list (string * Params * Z) -> Prop :=
| exit_ceiling res :
    ToolCallState.can_make_more_calls (tool_state st) = false ->
    exit_shape messages st (text_of res)
      [BackendCall final_call (final_params self messages system_content) res]
      []
| exit_backend_error e :
    ToolCallState.can_make_more_calls (tool_state st) = true ->
    exit_shape messages st (Err e)
      [BackendCall in_loop
         (api_params self messages system_content tools tool_manager) (Err e)]
      []
| exit_answer r :
    ToolCallState.can_make_more_calls (tool_state st) = true ->
    stop_reason r <> "tool_use" ->
    exit_shape messages st (first_text r)
      [BackendCall in_loop
         (api_params self messages system_content tools tool_manager) (Ok r)]
      []
| exit_no_blocks r res :
    ToolCallState.can_make_more_calls (tool_state st) = true ->
    stop_reason r = "tool_use" ->
    tool_use_ids (content r) = [] ->
    exit_shape messages st (text_of res)
      [BackendCall in_loop
         (api_params self messages system_content tools tool_manager) (Ok r);
       BackendCall final_call
         (final_params self (messages ++ [assistant_message r]) system_content)
         res]
      []
| exit_no_manager r :
    ToolCallState.can_make_more_calls (tool_state st) = true ->
    stop_reason r = "tool_use" ->
    tool_use_ids (content r) <> [] ->
    tool_manager = None ->
    exit_shape messages st (Err AttributeError)
      [BackendCall in_loop
         (api_params self messages system_content tools tool_manager) (Ok r)]
      []
| exit_tool_error r evs name input e :
    ToolCallState.can_make_more_calls (tool_state st) = true ->
    stop_reason r = "tool_use" ->
    Forall ok_tool_call evs ->
    exit_shape messages st (Err e)
      (BackendCall in_loop
         (api_params self messages system_content tools tool_manager) (Ok r)
         :: evs ++ [ToolCall name input (Err e)])
      (executed evs).

(** Every run consists of completed rounds up to a last loop head and one
    of the exits after it. *)
Lemma run_shape out st :
  while_loop self system_content tools tool_manager (initial_messages query)
    (initial_state max_tool_rounds w0) = (out, st) ->
  exists messages sth tail recs,
    reachable_head messages sth /\
    exit_shape messages sth out tail recs /\
    log st = log sth ++ tail /\
    ToolCallState.max_rounds (tool_state st)
      = ToolCallState.max_rounds (tool_state sth) /\
    ToolCallState.current_round (tool_state st)
      = ToolCallState.current_round (tool_state sth) /\
    map call_key (ToolCallState.tool_calls_made (tool_state st))
      = map call_key (ToolCallState.tool_calls_made (tool_state sth)) ++ recs.
Proof.
  intros Hrun.
  pose proof (while_loop_run_end (initial_messages query)
                (initial_state max_tool_rounds w0)) as Hend.
  rewrite Hrun in Hend.
  inversion Hend as
    [ m sth Hh Hc Heq | m sth m' st' Hh Hc Hb Heq
    | m sth text st' Hh Hc Hb Heq | m sth e st' Hh Hc Hb Heq ].
  - destruct (final_response_state m sth) as (res & w' & _ & Hfin).
    rewrite Hfin in Heq. inversion Heq; subst out st.
    exists m, sth; eexists; exists []. split; [exact Hh|]. split; [now apply exit_ceiling|].
    cbn. rewrite app_nil_r. repeat split.
  - apply loop_body_outcome in Hb.
    inversion Hb as
      [ | r w' Hcall Hstop Hres
        | r w' Hcall Hstop Hids | | | ]; subst;
      try (destruct (first_text r); discriminate).
    match type of Heq with
    | _make_final_response _ ?m' _ ?s' = _ =>
        destruct (final_response_state m' s') as (res & w'' & _ & Hfin)
    end.
    rewrite Hfin in Heq. inversion Heq; subst out st.
    exists m, sth; eexists; exists []. split; [exact Hh|].
    split; [now apply (exit_no_blocks m sth r res)|].
    cbn. rewrite app_nil_r, <- app_assoc. repeat split.
  - apply loop_body_outcome in Hb. inversion Heq; subst out st.
    inversion Hb as
      [ | r w' Hcall Hstop Hres | | | | ]; subst.
    destruct (first_text r) as [t|e] eqn:Et; [|discriminate].
    inversion Hres; subst text.
    exists m, sth; eexists; exists []. split; [exact Hh|]. split.
    + rewrite <- Et. now apply exit_answer.
    + cbn. rewrite app_nil_r. repeat split.
  - apply loop_body_outcome in Hb. inversion Heq; subst out st.
    inversion Hb as
      [ e' w' Hcall
      | r w' Hcall Hstop Hres
      | | | r w' Hcall Hstop Hids Hnone
      | r w' evs name input e' st1 Hcall Hstop Hok Hlog Hmax Hcur Hrec ];
      subst.
    + exists m, sth; eexists; exists []. split; [exact Hh|].
      split; [now apply exit_backend_error|].
      cbn. rewrite app_nil_r. repeat split.
    + destruct (first_text r) as [t|e'] eqn:Et; [discriminate|].
      inversion Hres; subst e.
      exists m, sth; eexists; exists []. split; [exact Hh|]. split.
      * rewrite <- Et. now apply exit_answer.
      * cbn. rewrite app_nil_r. repeat split.
    + exists m, sth; eexists; exists []. split; [exact Hh|].
      split; [now apply (exit_no_manager m sth r)|].
      cbn. rewrite app_nil_r. repeat split.
    + exists m, sth; eexists; exists (executed evs). split; [exact Hh|].
      split; [now apply (exit_tool_error m sth r evs name input)|].
      repeat split; assumption.
Qed.

(** What the log of completed rounds looks like to the observations. *)
Lemma rounds_log_facts l messages :
  rounds_log l messages ->
  messages = spec_transcript query l /\
  List.length (tools_per_call l) = backend_calls l /\
  Forall (fun k => (1 <= k)%nat) (tools_per_call l) /\
  List.length (backend_responses l) = backend_calls l /\
  Forall requested_tools (backend_responses l) /\
  (forall name input e, ~ In (ToolCall name input (Err e)) l) /\
  (forall s rq rs, In (BackendCall s rq rs) l -> s = in_loop).
Proof.
  induction 1 as [|l m r evs Hl IH Hstop Hids Hok Hlen].
  - cbn. repeat split; try apply Forall_nil; intros; try intros []; contradiction.
  - destruct IH as (Hm & Hn & Hpos & Hrn & Hreq & Hnoerr & Hsite).
    destruct (tools_per_call_tool_calls evs Hok) as [Htpc Hlead].
    rewrite tools_per_call_before_backend, backend_calls_app,
      backend_responses_app.
    cbn [tools_per_call backend_calls backend_responses].
    rewrite Htpc, Hlead, (backend_calls_tool_calls evs Hok),
      (backend_responses_tool_calls evs Hok), !length_app. cbn [List.length].
    repeat split.
    + unfold spec_transcript in *.
      rewrite spec_round_messages_before_backend. cbn [spec_round_messages].
      rewrite (spec_round_messages_tool_calls evs Hok), Hm. reflexivity.
    + lia.
    + apply Forall_app. split; [exact Hpos|]. constructor; [|constructor].
      rewrite Hlen. destruct (tool_use_ids (content r)); [congruence|cbn; lia].
    + lia.
    + apply Forall_app. split; [exact Hreq|]. constructor; [exact Hstop|constructor].
    + intros name input e Hin. apply in_app_or in Hin.
      destruct Hin as [Hin|[Hin|Hin]].
      * exact (Hnoerr _ _ _ Hin).
      * discriminate.
      * rewrite Forall_forall in Hok. exact (Hok _ Hin).
    + intros s rq rs Hin. apply in_app_or in Hin.
      destruct Hin as [Hin|[Hin|Hin]].
      * exact (Hsite _ _ _ Hin).
      * now inversion Hin.
      * exfalso. exact (tool_calls_no_backend_call evs Hok _ _ _ Hin).
Qed.

(** What every request of a run looks like: one made in the loop is the
    request of [api_params] for the Transcript of the rounds before it,
    one made after the loop is a request of [final_params]. *)
Definition request_ok (pre : list Event) (s : Site) (rq : Request)
    (rs : Result Response) : Prop :=
  match s with
  | in_loop =>
      rq = api_params self (spec_transcript query pre) system_content
             tools tool_manager
  | final_call => exists messages, rq = final_params self messages system_content
  end.

Lemma rounds_log_requests l messages :
  rounds_log l messages -> each_call request_ok l.
Proof.
  induction 1 as [|l m r evs Hl IH Hstop Hids Hok Hlen].
  - intros pre s rq rs post E. destruct pre; discriminate.
  - apply each_call_round; [exact IH | now apply tool_calls_no_backend_call |].
    intros s rq rs E. inversion E; subst. cbn.
    apply rounds_log_facts in Hl. destruct Hl as [-> _]. reflexivity.
Qed.

Lemma run_requests out st :
  while_loop self system_content tools tool_manager (initial_messages query)
    (initial_state max_tool_rounds w0) = (out, st) ->
  each_call request_ok (log st).
Proof.
  intros Hrun. apply run_shape in Hrun.
  destruct Hrun as (m & sth & tail & recs & Hh & Hexit & Hlog & _).
  apply head_facts in Hh. destruct Hh as (Hl & _).
  pose proof (rounds_log_requests _ _ Hl) as Hreq.
  apply rounds_log_facts in Hl. destruct Hl as [Hm _].
  rewrite Hlog.
  assert (Hloop : forall rs,
            request_ok (log sth) in_loop
              (api_params self m system_content tools tool_manager) rs).
  { intros rs. cbn. rewrite Hm. reflexivity. }
  clear Hm. inversion Hexit; subst.
  - apply each_call_round; [exact Hreq | intros s rq rs [] |].
    intros s rq rs E. inversion E; subst. cbn. eexists. reflexivity.
  - apply each_call_round; [exact Hreq | intros s rq rs [] |].
    intros s rq rs E. inversion E; subst. apply Hloop.
  - apply each_call_round; [exact Hreq | intros s rq rs [] |].
    intros s rq rs E. inversion E; subst. apply Hloop.
  - change [BackendCall in_loop
              (api_params self m system_content tools tool_manager) (Ok r);
            BackendCall final_call
              (final_params self (m ++ [assistant_message r]) system_content)
              res]
      with ([BackendCall in_loop
               (api_params self m system_content tools tool_manager) (Ok r)]
            ++ [BackendCall final_call
                  (final_params self (m ++ [assistant_message r]) system_content)
                  res]).
    rewrite app_assoc.
    apply each_call_round; [| intros s rq rs [] |].
    + apply each_call_round; [exact Hreq | intros s rq rs [] |].
      intros s rq rs E. inversion E; subst. apply Hloop.
    + intros s rq rs E. inversion E; subst. cbn. eexists. reflexivity.
  - apply each_call_round; [exact Hreq | intros s rq rs [] |].
    intros s rq rs E. inversion E; subst. apply Hloop.
  - apply each_call_round;
      [exact Hreq | now apply failed_round_no_backend_call |].
    intros s rq rs E. inversion E; subst. apply Hloop.
Qed.

(** The log of completed rounds starts with the request for the query
    alone, and none of its calls raised. *)
Lemma rounds_log_starts l messages :
  rounds_log l messages ->
  (l = [] /\ messages = initial_messages query) \/
  (exists r rest,
     l = BackendCall in_loop
           (api_params self (initial_messages query) system_content tools
              tool_manager)
           (Ok r) :: rest).
Proof.
  induction 1 as [|l m r evs Hl IH Hstop Hids Hok Hlen].
  - left. split; reflexivity.
  - right. destruct IH as [[-> ->] | (r0 & rest & ->)].
    + exists r, evs. reflexivity.
    + eexists r0, _. cbn. reflexivity.
Qed.

Lemma rounds_log_no_failed_call l messages :
  rounds_log l messages ->
  forall s rq e, ~ In (BackendCall s rq (Err e)) l.
Proof.
  induction 1 as [|l m r evs Hl IH Hstop Hids Hok Hlen]; intros s rq e Hin.
  - destruct Hin.
  - apply in_app_or in Hin. destruct Hin as [Hin|[Hin|Hin]].
    + exact (IH _ _ _ Hin).
    + discriminate.
    + exact (tool_calls_no_backend_call evs Hok _ _ _ Hin).
Qed.

(** The round numbers of the records. *)
Lemma head_record_rounds (transcript : list Message) st :
  reachable_head transcript st ->
  Forall (fun rec => 0 <= ToolCallState.round rec
                       < ToolCallState.current_round (tool_state st))
    (ToolCallState.tool_calls_made (tool_state st)).
Proof.
  intros Hreach. unfold reachable_head in Hreach.
  induction Hreach as [|m st m' st' Hhead IH Hc Hb].
  - constructor.
  - destruct (head_facts _ _ Hhead) as (_ & _ & Hcur & _).
    destruct (loop_body_rounds _ _ _ _ Hb) as [_ Hcur'].
    destruct (loop_body_records _ _ _ _ Hb) as (added & Hmade & Hr).
    rewrite Hmade, Hcur'. apply Forall_app. split.
    + eapply Forall_impl; [|exact IH]. cbn. intros rec H. lia.
    + eapply Forall_impl; [|exact Hr]. cbn. intros rec ->. lia.
Qed.

Lemma run_record_rounds out st :
  while_loop self system_content tools tool_manager (initial_messages query)
    (initial_state max_tool_rounds w0) = (out, st) ->
  Forall (fun rec => 0 <= ToolCallState.round rec < max_tool_rounds)
    (ToolCallState.tool_calls_made (tool_state st)).
Proof.
  intros Hrun.
  pose proof (while_loop_run_end (initial_messages query)
                (initial_state max_tool_rounds w0)) as Hend.
  rewrite Hrun in Hend.
  assert (Hstep : forall m sth c st',
            reachable_head m sth ->
            ToolCallState.can_make_more_calls (tool_state sth) = true ->
            loop_body self system_content tools tool_manager m sth = (c, st') ->
            Forall (fun rec => 0 <= ToolCallState.round rec < max_tool_rounds)
              (ToolCallState.tool_calls_made (tool_state st'))).
  { intros m sth c st' Hh Hc Hb.
    destruct (head_facts _ _ Hh) as (_ & Hmax & Hcur & _).
    pose proof (head_record_rounds _ _ Hh) as Hrec.
    destruct (loop_body_records _ _ _ _ Hb) as (added & Hmade & Hr).
    unfold ToolCallState.can_make_more_calls in Hc. apply Z.ltb_lt in Hc.
    rewrite Hmade. apply Forall_app. split.
    - eapply Forall_impl; [|exact Hrec]. cbn. intros rec H. lia.
    - eapply Forall_impl; [|exact Hr]. cbn. intros rec ->. lia. }
  inversion Hend as
    [ m sth Hh Hc Heq | m sth m' st' Hh Hc Hb Heq
    | m sth text st' Hh Hc Hb Heq | m sth e st' Hh Hc Hb Heq ].
  - destruct (final_response_state m sth) as (res & w' & _ & Hfin).
    rewrite Hfin in Heq. inversion Heq; subst out st. cbn.
    destruct (head_facts _ _ Hh) as (_ & Hmax & Hcur & Hle & _).
    pose proof (head_record_rounds _ _ Hh) as Hrec.
    eapply Forall_impl; [|exact Hrec]. cbn. intros rec H. lia.
  - destruct (final_response_state m' st') as (res & w' & _ & Hfin).
    rewrite Hfin in Heq. inversion Heq; subst out st. cbn.
    eapply Hstep; eassumption.
  - inversion Heq; subst out st. eapply Hstep; eassumption.
  - inversion Heq; subst out st. eapply Hstep; eassumption.
Qed.

(** The message list only grows: [extends later] holds of a call whose
    request's messages are a proper initial part of [later]. *)
Definition extends (later : list Message) (pre : list Event) (s : Site)
    (rq : Request) (rs : Result Response) : Prop :=
  exists ext, ext <> [] /\ later = messages rq ++ ext.

Definition grows (pre : list Event) (s : Site) (rq : Request)
    (rs : Result Response) : Prop :=
  each_call (extends (messages rq)) pre.

Lemma extends_more later more l :
  each_call (extends later) l -> each_call (extends (later ++ more)) l.
Proof.
  apply each_call_impl. intros pre s rq rs (ext & Hne & ->).
  exists (ext ++ more). split.
  - destruct ext; [congruence | discriminate].
  - rewrite app_assoc. reflexivity.
Qed.

Lemma transcript_extends l (transcript : list Message) :
  rounds_log l transcript -> each_call (extends transcript) l.
Proof.
  induction 1 as [|l m r evs Hl IH Hstop Hids Hok Hlen].
  - intros pre s rq rs post E. destruct pre; discriminate.
  - apply each_call_round.
    + now apply extends_more.
    + now apply tool_calls_no_backend_call.
    + intros s rq rs E. inversion E; subst.
      eexists. split; [|rewrite messages_api_params; reflexivity]. discriminate.
Qed.

Lemma rounds_log_grows l (transcript : list Message) :
  rounds_log l transcript -> each_call grows l.
Proof.
  induction 1 as [|l m r evs Hl IH Hstop Hids Hok Hlen].
  - intros pre s rq rs post E. destruct pre; discriminate.
  - apply each_call_round; [exact IH | now apply tool_calls_no_backend_call |].
    intros s rq rs E. inversion E; subst. unfold grows.
    rewrite messages_api_params. now apply transcript_extends.
Qed.

Lemma run_grows out st :
  while_loop self system_content tools tool_manager (initial_messages query)
    (initial_state max_tool_rounds w0) = (out, st) ->
  each_call grows (log st).
Proof.
  intros Hrun. apply run_shape in Hrun.
  destruct Hrun as (m & sth & tail & recs & Hh & Hexit & Hlog & _).
  apply head_facts in Hh. destruct Hh as (Hl & _).
  pose proof (rounds_log_grows _ _ Hl) as Hg.
  pose proof (transcript_extends _ _ Hl) as Hext.
  rewrite Hlog.
  assert (Hloop : forall rs,
            grows (log sth) in_loop
              (api_params self m system_content tools tool_manager) rs).
  { intros rs. unfold grows. rewrite messages_api_params. exact Hext. }
  inversion Hexit; subst.
  - apply each_call_round; [exact Hg | intros s rq rs [] |].
    intros s rq rs E. inversion E; subst. exact Hext.
  - apply each_call_round; [exact Hg | intros s rq rs [] |].
    intros s rq rs E. inversion E; subst. apply Hloop.
  - apply each_call_round; [exact Hg | intros s rq rs [] |].
    intros s rq rs E. inversion E; subst. apply Hloop.
  - change [BackendCall in_loop
              (api_params self m system_content tools tool_manager) (Ok r);
            BackendCall final_call
              (final_params self (m ++ [assistant_message r]) system_content)
              res]
      with ([BackendCall in_loop
               (api_params self m system_content tools tool_manager) (Ok r)]
            ++ [BackendCall final_call
                  (final_params self (m ++ [assistant_message r]) system_content)
                  res]).
    rewrite app_assoc.
    apply each_call_round; [| intros s rq rs [] |].
    + apply each_call_round; [exact Hg | intros s rq rs [] |].
      intros s rq rs E. inversion E; subst. apply Hloop.
    + intros s rq rs E. inversion E; subst. unfold grows. cbn [messages final_params].
      apply each_call_round; [| intros s' rq' rs' [] |].
      * now apply extends_more.
      * intros s' rq' rs' E'. inversion E'; subst.
        eexists. split; [|rewrite messages_api_params; reflexivity]. discriminate.
  - apply each_call_round; [exact Hg | intros s rq rs [] |].
    intros s rq rs E. inversion E; subst. apply Hloop.
  - apply each_call_round;
      [exact Hg | now apply failed_round_no_backend_call |].
    intros s rq rs E. inversion E; subst. apply Hloop.
Qed.

(** Every completed round left at least one returned execution. *)
Lemma rounds_log_executed l (transcript : list Message) :
  rounds_log l transcript ->
  (backend_calls l <= List.length (executed l))%nat.
Proof.
  induction 1 as [|l m r evs Hl IH Hstop Hids Hok Hlen].
  - cbn. lia.
  - rewrite backend_calls_app, executed_app, length_app.
    cbn [backend_calls executed].
    rewrite (backend_calls_tool_calls evs Hok).
    assert (Hex : List.length (executed evs) = List.length evs).
    { clear - Hok. induction Hok as [|[s rq rs|n i [v|e]] evs Hev _ IH];
        cbn; try contradiction; auto. }
    rewrite Hex, Hlen.
    destruct (tool_use_ids (content r)); [congruence | cbn; lia].
Qed.

(** The round counter counts the completed rounds of the log. *)
Lemma rounds_log_completed l (transcript : list Message) :
  rounds_log l transcript -> completed_rounds l = backend_calls l.
Proof.
  induction 1 as [|l m r evs Hl IH Hstop Hids Hok Hlen].
  - reflexivity.
  - rewrite completed_rounds_before_backend, backend_calls_app, IH.
    cbn [completed_rounds backend_calls].
    destruct (completed_rounds_tool_calls evs Hok) as [Hall Hzero].
    destruct (tools_per_call_tool_calls evs Hok) as [_ Hlead].
    rewrite Hall, Hzero, Hlead, (backend_calls_tool_calls evs Hok), Hlen.
    destruct (tool_use_ids (content r)); [congruence | cbn; lia].
Qed.

Lemma run_completed_rounds out st :
  while_loop self system_content tools tool_manager (initial_messages query)
    (initial_state max_tool_rounds w0) = (out, st) ->
  ToolCallState.current_round (tool_state st)
    = Z.of_nat (completed_rounds (log st)).
Proof.
  intros Hrun. apply run_shape in Hrun.
  destruct Hrun as (m & sth & tail & recs & Hh & Hexit & Hlog & _ & Hcur' & _).
  apply head_facts in Hh. destruct Hh as (Hl & _ & Hcur & _).
  apply rounds_log_completed in Hl.
  rewrite Hcur', Hcur, Hlog, <- Hl. f_equal.
  inversion Hexit as
    [ res Hc | e0 Hc | r Hc Hstop | r res Hc Hstop Hids
    | r Hc Hstop Hids Hnone | r evs name0 input0 e0 Hc Hstop Hok ]; subst;
    rewrite completed_rounds_before_backend; cbn [completed_rounds];
    cbn; try lia.
  destruct (completed_rounds_failed_round evs name0 input0 e0 Hok)
    as [Hall Hzero].
  rewrite Hall, Hzero, andb_false_r. lia.
Qed.

End FromStart.

End Run.

End Orchestrator.

Arguments ContentBlock : clear implicits.
Arguments MessageContent : clear implicits.
Arguments Message : clear implicits.
Arguments Response : clear implicits.
Arguments Request : clear implicits.
Arguments Client : clear implicits.
Arguments ToolManager : clear implicits.
Arguments AIGenerator : clear implicits.
Arguments Event : clear implicits.
Arguments St : clear implicits.
Arguments Control : clear implicits.

(** ** A concrete setting

    Tool parameters are association lists, tool definitions are names, and
    the outside world is the list of answers the backend will give, in
    order, as the repository's tests script it. *)

Module Examples.

Definition Params : Type := list (string * string).
Definition ToolDef : Type := string.
Definition World : Type := list (Result (Response Params)).

Definition scripted : Client Params ToolDef World :=
  fun _ w =>
    match w with
    | [] => (Err (Raised "StopIteration"), [])
    | r :: rest => (r, rest)
    end.

(** A registry whose tools return a text, except [failing_tool], which
    raises. *)
Definition registry : ToolManager Params World :=
  {| execute_tool := fun name _ w =>
       if String.eqb name "failing_tool"
       then (Err (Raised "Tool error"), w)
       else (Ok (Some ("result of " ++ name)%string), w) |}.

Definition generator : AIGenerator Params ToolDef World :=
  AIGenerator_init scripted "claude".

Definition wants_tools (blocks : list (ContentBlock Params))
    : Result (Response Params) :=
  Ok {| stop_reason := "tool_use"; content := blocks |}.

Definition end_turn (text : string) : Result (Response Params) :=
  Ok {| stop_reason := "end_turn"; content := [TextBlock text] |}.

Definition search (id : string) : ContentBlock Params :=
  ToolUseBlock id "search_course_content" [("query", "loops")].

Definition fresh (w : World) : St Params ToolDef World :=
  initial_state 2 w.

Definition two_tools : Response Params :=
  {| stop_reason := "tool_use";
     content := [TextBlock "Let me look."; search "toolu_1";
                 ToolUseBlock "toolu_2" "get_course_outline" [("title", "MCP")]] |}.

Definition seed : list (Message Params) := initial_messages "What is a loop?".

Definition offered : option (list ToolDef) := Some ["search_course_content"].

Definition prompt : string := "You are an assistant.".

(** One tool round, then an answer. *)
Definition one_round : World :=
  [wants_tools [search "toolu_1"]; end_turn "A loop repeats."].

(** The pass through the body that a run with ceiling 1 starts with. *)
Definition first_pass : Result (Control Params) * St Params ToolDef World :=
  loop_body generator (build_system_content prompt None) offered
    (Some registry) seed (initial_state 1 one_round).

Definition second_head_messages : list (Message Params) :=
  match fst first_pass with
  | Ok (Continue messages) => messages
  | _ => []
  end.

(** Two tool-use blocks of which the first names the failing tool, then
    the answer a synthesis would get. *)
Definition failing_round : World :=
  [wants_tools [ToolUseBlock "toolu_1" "failing_tool" [];
                search "toolu_2"];
   end_turn "Fallback response"].

(** A request for tools without any tool-use block, then an answer. *)
Definition inconsistent : World :=
  [wants_tools [TextBlock "Let me look."]; end_turn "Synthesis"].

Definition after_two_tools : list (Message Params) :=
  seed ++
    [ {| role := assistant; message_content := Blocks (content two_tools) |};
      {| role := user;
         message_content :=
           ToolResults
             [ {| tool_use_id := "toolu_1";
                  result_content := Some "result of search_course_content" |};
               {| tool_use_id := "toolu_2";
                  result_content := Some "result of get_course_outline" |} ] |} ].

End Examples.

(** * The claims *)

(** ** The Round Tracker *)

(** C8. [add_tool_call], for every tool name, parameter mapping and result
    text (present, empty or absent), appends exactly one record to
    [tool_calls_made]; the record holds the name and the parameters, its
    [result_length] is the length of the text passed, and 0 when the text
    is empty or absent; nothing else of the tracker changes.  The call
    never fails: in the loop it always returns normally. *)
Theorem add_tool_call_appends_one_record (Params ToolDef World : Type)
    (ts : ToolCallState.t Params) (tool_name : string) (ps : Params)
    (result : option string) (st : St Params ToolDef World) :
  exists rec,
    ToolCallState.tool_calls_made
      (ToolCallState.add_tool_call ts tool_name ps result)
      = ToolCallState.tool_calls_made ts ++ [rec] /\
    ToolCallState.tool rec = tool_name /\
    ToolCallState.params rec = ps /\
    ToolCallState.round rec = ToolCallState.current_round ts /\
    ToolCallState.result_length rec
      = match result with
        | Some text => Z.of_nat (String.length text)
        | None => 0
        end /\
    (result = None \/ result = Some EmptyString ->
     ToolCallState.result_length rec = 0) /\
    ToolCallState.max_rounds (ToolCallState.add_tool_call ts tool_name ps result)
      = ToolCallState.max_rounds ts /\
    ToolCallState.current_round (ToolCallState.add_tool_call ts tool_name ps result)
      = ToolCallState.current_round ts /\
    fst (modify_tool_state
           (fun ts => ToolCallState.add_tool_call ts tool_name ps result) st)
      = Ok tt.
Proof.
  eexists. split; [reflexivity|]. cbn.
  repeat split.
  - destruct result as [[|c text]|]; reflexivity.
  - intros [-> | ->]; reflexivity.
Qed.

(** ** The transcript *)

(** C5. After a round in which at least one tool executes, that is, each
    time [_execute_tool_round] returns having executed a tool ([evs], what
    the round added to the log, is not empty; this is so as soon as the
    response holds a tool-use block), the flag [tools_executed] is true and
    the message list has grown by exactly two messages: an assistant message
    holding the content blocks of the response, then one user message of
    tool-result blocks.  The round executed the tool-use blocks of the
    response, all of them, in their order; there are as many result blocks
    as tool-use blocks, their [tool_use_id]s are the ids of those blocks in
    the order of the blocks, and their contents are the values the
    executions returned, in the order they were made. *)
Theorem tool_round_appends_two_messages (Params ToolDef World : Type)
    (response : Response Params) (messages messages' : list (Message Params))
    (tool_manager : option (ToolManager Params World))
    (st st' : St Params ToolDef World) (tools_executed : bool)
    (evs : list (Event Params ToolDef)) :
  _execute_tool_round response messages tool_manager st
    = (Ok (messages', tools_executed), st') ->
  log st' = log st ++ evs ->
  evs <> [] \/ filter is_tool_use (content response) <> [] ->
  tools_executed = true /\
  evs <> [] /\
  Forall ok_tool_call evs /\
  invocations evs = tool_uses (content response) /\
  exists results,
    messages' = messages ++ [ {| role := assistant;
                                 message_content := Blocks (content response) |};
                              {| role := user;
                                 message_content := ToolResults results |} ] /\
    List.length messages' = (List.length messages + 2)%nat /\
    List.length results
      = List.length (filter is_tool_use (content response)) /\
    List.length results = List.length evs /\
    map tool_use_id results = tool_use_ids (content response) /\
    results = round_results (tool_use_ids (content response)) evs.
Proof.
  unfold _execute_tool_round, bind.
  destruct (for_content_blocks tool_manager (content response) [] false st)
    as [[[trs te]|e] st1] eqn:E; [|discriminate].
  destruct (for_content_blocks_invocations _ _ _ _ _ _ _ E)
    as (evs1 & rest & Hlog1 & _ & Huses & Hrest).
  apply for_content_blocks_spec in E.
  destruct E as (evs0 & Hok & Hlen & Hlog & _ & Htrs & Hte).
  cbn [app orb] in Htrs, Hte. subst trs te.
  intros H Hevs Hsome. inversion H; subst st1.
  rewrite Hlog in Hevs. apply app_inv_head in Hevs. subst evs0.
  rewrite Hlog in Hlog1. apply app_inv_head in Hlog1. subst evs1.
  rewrite (Hrest _ eq_refl), app_nil_r in Huses.
  pose proof (round_results_ids _ evs Hok Hlen) as Hids.
  pose proof (tool_use_ids_length (content response)) as Hfilter.
  destruct (tool_use_ids (content response)) as [|id ids] eqn:Eids.
  - exfalso. destruct Hsome as [Hne | Hne]; apply Hne.
    + destruct evs; [reflexivity | discriminate].
    + destruct (filter is_tool_use (content response));
        [reflexivity | discriminate].
  - destruct (round_results (id :: ids) evs) as [|tr trs] eqn:Eres;
      [discriminate|].
    assert (Hn : List.length (tr :: trs) = List.length (id :: ids))
      by (rewrite <- Hids, length_map; reflexivity).
    split; [reflexivity|]. split; [destruct evs; discriminate|].
    split; [exact Hok|]. split; [symmetry; exact Huses|].
    exists (tr :: trs). rewrite <- app_assoc. cbn [app]. repeat split.
    + rewrite length_app. cbn. lia.
    + rewrite Hn. exact Hfilter.
    + rewrite Hn. symmetry. exact Hlen.
    + exact Hids.
Qed.

Lemma tool_round_appends_two_messages_witness :
  _execute_tool_round Examples.two_tools Examples.seed
      (Some Examples.registry) (Examples.fresh [])
    = (Ok (Examples.after_two_tools, true),
       snd (_execute_tool_round Examples.two_tools Examples.seed
              (Some Examples.registry) (Examples.fresh []))) /\
  exists results,
    Examples.after_two_tools
      = Examples.seed ++
          [ {| role := assistant;
               message_content := Blocks (content Examples.two_tools) |};
            {| role := user; message_content := ToolResults results |} ] /\
    List.length results = 2%nat /\
    map tool_use_id results = ["toolu_1"; "toolu_2"]%string.
Proof.
  assert (H : _execute_tool_round Examples.two_tools Examples.seed
                (Some Examples.registry) (Examples.fresh [])
              = (Ok (Examples.after_two_tools, true),
                 snd (_execute_tool_round Examples.two_tools Examples.seed
                        (Some Examples.registry) (Examples.fresh []))))
    by (vm_compute; reflexivity).
  split; [exact H|].
  destruct (tool_round_appends_two_messages _ _ _ _ _ _ _ _ _ _
              (log (snd (_execute_tool_round Examples.two_tools Examples.seed
                           (Some Examples.registry) (Examples.fresh []))))
              H)
    as (_ & _ & _ & _ & results & Hm & _ & Hn & _ & Hids & _).
  - reflexivity.
  - right. cbn. discriminate.
  - exists results. repeat split; [exact Hm | exact Hn | exact Hids].
Defined.

(** ** The short-circuit *)

(** C3. With a ceiling of at least one round, when the first answer of the
    backend does not have stop reason [tool_use], [generate_response] makes
    exactly one backend call (the one in the loop, no final call), executes
    no tool and records none, and returns what [response.content[0].text]
    evaluates to: the text of the response. *)
Theorem direct_answer_short_circuit (Params ToolDef World : Type)
    (SYSTEM_PROMPT : string) (self : AIGenerator Params ToolDef World)
    (query : string) (conversation_history : option string)
    (tools : option (list ToolDef))
    (tool_manager : option (ToolManager Params World))
    (max_tool_rounds : Z) (w w' : World) (response : Response Params) :
  1 <= max_tool_rounds ->
  client self
    (api_params self (initial_messages query)
       (build_system_content SYSTEM_PROMPT conversation_history)
       tools tool_manager) w = (Ok response, w') ->
  stop_reason response <> "tool_use"%string ->
  exists st,
    generate_response SYSTEM_PROMPT self query conversation_history tools
      tool_manager max_tool_rounds w = (first_text response, st) /\
    (forall text rest,
       content response = TextBlock text :: rest ->
       first_text response = Ok text) /\
    log st = [BackendCall in_loop
                (api_params self (initial_messages query)
                   (build_system_content SYSTEM_PROMPT conversation_history)
                   tools tool_manager)
                (Ok response)] /\
    backend_calls (log st) = 1%nat /\
    (forall name input res, ~ In (ToolCall name input res) (log st)) /\
    ToolCallState.tool_calls_made (tool_state st) = [] /\
    ToolCallState.current_round (tool_state st) = 0.
Proof.
  intros HN Hcall Hstop.
  unfold generate_response.
  rewrite while_loop_step
    by (cbn; unfold ToolCallState.can_make_more_calls; cbn; apply Z.ltb_lt; lia).
  unfold loop_body, bind, messages_create. cbn [world initial_state].
  rewrite Hcall.
  apply String.eqb_neq in Hstop. rewrite Hstop.
  unfold lift, ret.
  exists {| world := w';
            tool_state := ToolCallState.init max_tool_rounds;
            log := [BackendCall in_loop
                      (api_params self (initial_messages query)
                         (build_system_content SYSTEM_PROMPT conversation_history)
                         tools tool_manager)
                      (Ok response)] |}.
  split; [destruct (first_text response); reflexivity|].
  cbn. repeat split.
  - intros text rest Hc. unfold first_text. rewrite Hc. reflexivity.
  - intros name input res [H|[]]. discriminate.
Qed.

Lemma direct_answer_short_circuit_witness :
  1 <= 2 /\
  exists st,
    generate_response "You are an assistant." Examples.generator
      "What is Python?" None None None 2
      [Examples.end_turn "Direct answer to question"]
      = (Ok "Direct answer to question"%string, st) /\
    backend_calls (log st) = 1%nat /\
    ToolCallState.tool_calls_made (tool_state st) = [].
Proof.
  split; [lia|].
  destruct (direct_answer_short_circuit Examples.Params Examples.ToolDef
              Examples.World "You are an assistant." Examples.generator
              "What is Python?" None None None 2
              [Examples.end_turn "Direct answer to question"] []
              {| stop_reason := "end_turn";
                 content := [TextBlock "Direct answer to question"] |})
    as (st & Hrun & _ & _ & Hcalls & _ & Hmade & _).
  - lia.
  - reflexivity.
  - cbn. discriminate.
  - exists st. repeat split; [exact Hrun | exact Hcalls | exact Hmade].
Defined.

(** ** The round counter *)

(** C7. For a ceiling [max_tool_rounds >= 0], the domain the specification
    gives it.  The tracker starts with [current_round = 0];
    [can_make_more_calls] is true exactly when [current_round < max_rounds];
    each time the condition of the loop is evaluated
    [0 <= current_round <= max_rounds = max_tool_rounds]; one pass through
    the body leaves [max_rounds] alone and either adds exactly 1 to
    [current_round] or leaves it alone; it adds 1 whenever the round
    completed with at least one tool executed (the pass logged a backend
    call followed by at least one tool execution, all of which returned),
    and only then; and in the state in which [generate_response] ends the
    bounds hold and [current_round] is the number of rounds of the run that
    completed with at least one tool executed. *)
Theorem round_counter_invariant (Params ToolDef World : Type)
    (SYSTEM_PROMPT : string) (self : AIGenerator Params ToolDef World)
    (query : string) (conversation_history : option string)
    (tools : option (list ToolDef))
    (tool_manager : option (ToolManager Params World))
    (max_tool_rounds : Z) (w : World) :
  0 <= max_tool_rounds ->
  ToolCallState.current_round
    (tool_state (initial_state (ToolDef := ToolDef) (Params := Params)
                   max_tool_rounds w)) = 0 /\
  (forall ts : ToolCallState.t Params,
     ToolCallState.can_make_more_calls ts = true <->
     ToolCallState.current_round ts < ToolCallState.max_rounds ts) /\
  (forall messages st,
     reachable_head self
       (build_system_content SYSTEM_PROMPT conversation_history)
       tools tool_manager query max_tool_rounds w messages st ->
     0 <= ToolCallState.current_round (tool_state st)
       <= ToolCallState.max_rounds (tool_state st) /\
     ToolCallState.max_rounds (tool_state st) = max_tool_rounds /\
     forall c st',
       loop_body self
         (build_system_content SYSTEM_PROMPT conversation_history)
         tools tool_manager messages st = (c, st') ->
       ToolCallState.max_rounds (tool_state st')
         = ToolCallState.max_rounds (tool_state st) /\
       ToolCallState.current_round (tool_state st')
         = match c with
           | Ok (Continue _) => ToolCallState.current_round (tool_state st) + 1
           | _ => ToolCallState.current_round (tool_state st)
           end /\
       (forall messages', c = Ok (Continue messages') ->
          exists call evs,
            evs <> [] /\ Forall ok_tool_call evs /\
            log st' = log st ++ call :: evs) /\
       (forall call evs,
          log st' = log st ++ call :: evs ->
          evs <> [] ->
          Forall ok_tool_call evs ->
          ToolCallState.current_round (tool_state st')
            = ToolCallState.current_round (tool_state st) + 1)) /\
  (forall out st,
     generate_response SYSTEM_PROMPT self query conversation_history tools
       tool_manager max_tool_rounds w = (out, st) ->
     0 <= ToolCallState.current_round (tool_state st)
       <= ToolCallState.max_rounds (tool_state st) /\
     ToolCallState.max_rounds (tool_state st) = max_tool_rounds /\
     ToolCallState.current_round (tool_state st)
       = Z.of_nat (completed_rounds (log st))).
Proof.
  intros HN.
  assert (Hhead : forall messages st,
            reachable_head self
              (build_system_content SYSTEM_PROMPT conversation_history)
              tools tool_manager query max_tool_rounds w messages st ->
            0 <= ToolCallState.current_round (tool_state st)
              <= ToolCallState.max_rounds (tool_state st) /\
            ToolCallState.max_rounds (tool_state st) = max_tool_rounds).
  { intros m st H. apply head_facts in H.
    destruct H as (_ & Hmax & Hcur & Hle & _). lia. }
  split; [reflexivity|]. split; [|split].
  - intros ts. unfold ToolCallState.can_make_more_calls. apply Z.ltb_lt.
  - intros m st H. destruct (Hhead m st H) as [Hb Hmax].
    split; [exact Hb|]. split; [exact Hmax|].
    intros c st' Hbody.
    destruct (loop_body_rounds _ _ _ _ _ _ _ _ Hbody) as [Hmax' Hcur'].
    split; [exact Hmax'|]. split; [exact Hcur'|]. split.
    + intros m' ->. apply loop_body_outcome in Hbody.
      inversion Hbody as
        [ | r w' Hcall Hstop Hres
          | | r w' evs st1 Hcall Hstop Hids Hok Hlen Hlog' _ _ _
          | | ]; subst;
        try (destruct (first_text r); discriminate).
      eexists _, evs. split; [|split; [exact Hok | exact Hlog']].
      intros ->. apply Hids.
      destruct (tool_use_ids (content r)); [reflexivity|discriminate].
    + intros call evs Hlog Hne Hok.
      destruct (loop_body_advances _ _ _ _ _ _ _ _ _ _ Hbody Hlog Hne Hok)
        as [m' ->].
      exact Hcur'.
  - intros out st Hrun. unfold generate_response in Hrun.
    pose proof (run_completed_rounds _ _ _ _ _ _ _ _ _ Hrun) as Hdone.
    split; [|split; [|exact Hdone]];
      pose proof (while_loop_run_end self
                    (build_system_content SYSTEM_PROMPT conversation_history)
                    tools tool_manager (initial_messages query)
                    (initial_state max_tool_rounds w)) as Hend;
      rewrite Hrun in Hend;
      inversion Hend as
        [ m sth Hh Hc Heq | m sth m' st' Hh Hc Hb Heq
        | m sth text st' Hh Hc Hb Heq | m sth e st' Hh Hc Hb Heq ];
      destruct (Hhead m sth Hh) as [Hbound Hmax];
      try (destruct (loop_body_rounds _ _ _ _ _ _ _ _ Hb) as [Hmax' Hcur']);
      try match type of Heq with
          | _make_final_response _ ?m0 _ ?s0 = _ =>
              destruct (final_response_state self
                          (build_system_content SYSTEM_PROMPT conversation_history)
                          m0 s0) as (res & w' & _ & Hfin);
              rewrite Hfin in Heq
          end;
      inversion Heq; subst; cbn; lia.
Qed.

Lemma round_counter_invariant_witness :
  let run := generate_response "You are an assistant." Examples.generator
               "What is a loop?" None (Some ["search_course_content"%string])
               (Some Examples.registry) 2
               [Examples.wants_tools [Examples.search "toolu_1"];
                Examples.end_turn "A loop repeats."] in
  0 <= 2 /\
  0 <= ToolCallState.current_round (tool_state (snd run))
    <= ToolCallState.max_rounds (tool_state (snd run)) /\
  ToolCallState.max_rounds (tool_state (snd run)) = 2 /\
  ToolCallState.current_round (tool_state (snd run))
    = Z.of_nat (completed_rounds (log (snd run))) /\
  completed_rounds (log (snd run)) = 1%nat.
Proof.
  cbv zeta. split; [lia|].
  destruct (round_counter_invariant Examples.Params Examples.ToolDef
              Examples.World "You are an assistant." Examples.generator
              "What is a loop?" None (Some ["search_course_content"%string])
              (Some Examples.registry) 2
              [Examples.wants_tools [Examples.search "toolu_1"];
               Examples.end_turn "A loop repeats."])
    as (_ & _ & _ & Hfinal).
  - lia.
  - destruct (Hfinal _ _ (surjective_pairing _)) as (Hb & Hm & Hd).
    split; [exact Hb|]. split; [exact Hm|]. split; [exact Hd|].
    vm_compute. reflexivity.
Defined.

(** ** The requests made in the loop *)

(** C9. Every backend request made in the body of the loop by a generator
    built by [__init__] has temperature 0 and the fixed output ceiling 800;
    its system text is the System Context, the same for every request of
    the run: the base instructions alone when no prior context is given
    (or an empty one), and otherwise the base instructions followed by the
    heading [Previous conversation:] and the prior context; its messages
    are the full Transcript so far (the query, then for every round
    before it the assistant message and the tool-result message); and it
    carries the tool list, with tool choice [auto], exactly when both
    tools and a tool manager were supplied, and neither key otherwise.  A
    specific tool is never forced. *)
Theorem loop_request_contents (Params ToolDef World : Type)
    (SYSTEM_PROMPT : string) (c : Client Params ToolDef World) (model : string)
    (query : string) (conversation_history : option string)
    (available_tools : option (list ToolDef))
    (tool_manager : option (ToolManager Params World))
    (max_tool_rounds : Z) (w : World) (out : Result string)
    (st : St Params ToolDef World)
    (pre post : list (Event Params ToolDef)) (req : Request Params ToolDef)
    (res : Result (Response Params)) :
  generate_response SYSTEM_PROMPT (AIGenerator_init c model) query
    conversation_history available_tools tool_manager max_tool_rounds w = (out, st) ->
  log st = pre ++ BackendCall in_loop req res :: post ->
  temperature req = 0 /\
  max_tokens req = 800 /\
  req_model req = model /\
  system req = build_system_content SYSTEM_PROMPT conversation_history /\
  (conversation_history = None \/ conversation_history = Some EmptyString ->
   system req = SYSTEM_PROMPT) /\
  (forall h, conversation_history = Some h -> h <> EmptyString ->
   system req
     = (SYSTEM_PROMPT ++ newline ++ newline ++ "Previous conversation:"
          ++ newline ++ h)%string) /\
  messages req = spec_transcript query pre /\
  (if truthy_list available_tools && truthy_obj tool_manager
   then tools req = available_tools /\
        tool_choice req = Some {| choice_type := "auto" |}
   else tools req = None /\ tool_choice req = None) /\
  (tool_choice req = None \/
   tool_choice req = Some {| choice_type := "auto" |}).
Proof.
  intros Hrun Hlog. unfold generate_response in Hrun.
  apply run_requests in Hrun. specialize (Hrun _ _ _ _ _ Hlog).
  cbn in Hrun. subst req. unfold api_params.
  destruct (truthy_list available_tools && truthy_obj tool_manager); cbn;
    (repeat split;
     [ intros [-> | ->]; reflexivity
     | intros h -> Hh; destruct h; [congruence | reflexivity]
     | auto ]).
Qed.

(** C10. When tools are given without a tool manager, or a tool manager
    without tools (none, or an empty list), no request made in the loop
    carries a tool list or a tool choice: each is the request that would
    have been built had neither been supplied. *)
Theorem no_tools_offered_without_both (Params ToolDef World : Type)
    (SYSTEM_PROMPT : string) (self : AIGenerator Params ToolDef World)
    (query : string) (conversation_history : option string)
    (available_tools : option (list ToolDef))
    (tool_manager : option (ToolManager Params World))
    (max_tool_rounds : Z) (w : World) (out : Result string)
    (st : St Params ToolDef World) (req : Request Params ToolDef)
    (res : Result (Response Params)) :
  generate_response SYSTEM_PROMPT self query conversation_history
    available_tools tool_manager max_tool_rounds w = (out, st) ->
  tool_manager = None \/ available_tools = None \/ available_tools = Some [] ->
  In (BackendCall in_loop req res) (log st) ->
  tools req = None /\
  tool_choice req = None /\
  req = api_params self (messages req)
          (build_system_content SYSTEM_PROMPT conversation_history) None None.
Proof.
  intros Hrun Hmissing Hin. unfold generate_response in Hrun.
  apply run_requests in Hrun.
  apply in_split in Hin. destruct Hin as (pre & post & Hlog).
  specialize (Hrun _ _ _ _ _ Hlog). cbn in Hrun. subst req.
  assert (Hboth : truthy_list available_tools && truthy_obj tool_manager = false).
  { destruct Hmissing as [-> | [-> | ->]]; cbn;
      [apply andb_false_r | reflexivity | reflexivity]. }
  unfold api_params. rewrite Hboth. cbn. repeat split.
Qed.

(** ** The final call *)

(** C6. When the condition of the loop is found false (the round ceiling
    is reached), [generate_response] makes exactly one more backend call,
    the first one made outside the loop; its request holds the message
    list accumulated so far, which is the Transcript of the rounds made,
    and the System Context, and has neither a tool list nor a tool choice,
    whatever [tools] and [tool_manager] are; and the run returns what
    [content[0].text] of its answer evaluates to. *)
Theorem final_call_at_ceiling (Params ToolDef World : Type)
    (SYSTEM_PROMPT : string) (self : AIGenerator Params ToolDef World)
    (query : string) (conversation_history : option string)
    (available_tools : option (list ToolDef))
    (tool_manager : option (ToolManager Params World))
    (max_tool_rounds : Z) (w : World)
    (transcript : list (Message Params)) (st : St Params ToolDef World) :
  reachable_head self
    (build_system_content SYSTEM_PROMPT conversation_history)
    available_tools tool_manager query max_tool_rounds w transcript st ->
  ToolCallState.can_make_more_calls (tool_state st) = false ->
  exists req res w',
    client self req (world st) = (res, w') /\
    generate_response SYSTEM_PROMPT self query conversation_history
      available_tools tool_manager max_tool_rounds w
      = (text_of res,
         {| world := w'; tool_state := tool_state st;
            log := log st ++ [BackendCall final_call req res] |}) /\
    (forall s rq rs, In (BackendCall s rq rs) (log st) -> s = in_loop) /\
    messages req = transcript /\
    transcript = spec_transcript query (log st) /\
    system req = build_system_content SYSTEM_PROMPT conversation_history /\
    tools req = None /\
    tool_choice req = None /\
    (forall r text rest,
       res = Ok r -> content r = TextBlock text :: rest ->
       text_of res = Ok text).
Proof.
  intros Hhead Hc.
  destruct (final_response_state self
              (build_system_content SYSTEM_PROMPT conversation_history)
              transcript st) as (res & w' & Hcall & Hfin).
  exists (final_params self transcript
            (build_system_content SYSTEM_PROMPT conversation_history)), res, w'.
  split; [exact Hcall|]. split.
  - unfold generate_response.
    rewrite (while_loop_at_head _ _ _ _ _ _ _ _ Hhead),
      (while_loop_exit _ _ _ _ _ _ Hc).
    exact Hfin.
  - apply head_facts in Hhead. destruct Hhead as (Hl & _).
    apply rounds_log_facts in Hl. destruct Hl as (Hm & _ & _ & _ & _ & _ & Hsite).
    repeat split; try assumption.
    intros r text rest -> Hr. cbn. unfold first_text. rewrite Hr. reflexivity.
Qed.

Lemma final_call_at_ceiling_witness :
  ToolCallState.can_make_more_calls (tool_state (snd Examples.first_pass))
    = false /\
  exists req res w',
    generate_response Examples.prompt Examples.generator "What is a loop?"
      None Examples.offered (Some Examples.registry) 1 Examples.one_round
      = (text_of res,
         {| world := w'; tool_state := tool_state (snd Examples.first_pass);
            log := log (snd Examples.first_pass)
                     ++ [BackendCall final_call req res] |}) /\
    messages req = Examples.second_head_messages /\
    tools req = None /\
    tool_choice req = None.
Proof.
  split; [reflexivity|].
  destruct (final_call_at_ceiling Examples.Params Examples.ToolDef
              Examples.World Examples.prompt Examples.generator
              "What is a loop?" None Examples.offered (Some Examples.registry)
              1 Examples.one_round Examples.second_head_messages
              (snd Examples.first_pass))
    as (req & res & w' & _ & Hrun & _ & Hm & _ & _ & Ht & Hc & _).
  - eapply head_next; [apply head_first | reflexivity | vm_compute; reflexivity].
  - reflexivity.
  - exists req, res, w'. repeat split; assumption.
Defined.

(** ** A request for tools without tool-use blocks *)

(** C1, as stated, fails: when the backend answers with stop reason
    [tool_use] and no tool-use block, the [break] at line 147 leaves the
    loop and control falls to [_make_final_response] at line 156, which
    makes the final call and returns its text. *)
Lemma empty_tool_round_is_synthesized :
  let run := generate_response Examples.prompt Examples.generator
               "What is a loop?" None Examples.offered
               (Some Examples.registry) 2 Examples.inconsistent in
  fst run = Ok "Synthesis"%string /\
  log (snd run)
    = [BackendCall in_loop
         (api_params Examples.generator Examples.seed Examples.prompt
            Examples.offered (Some Examples.registry))
         (Examples.wants_tools [TextBlock "Let me look."]);
       BackendCall final_call
         (final_params Examples.generator
            (Examples.seed ++
               [ {| role := assistant;
                    message_content := Blocks [TextBlock "Let me look."] |} ])
            Examples.prompt)
         (Examples.end_turn "Synthesis")] /\
  ToolCallState.current_round (tool_state (snd run)) = 0.
Proof.
  vm_compute. repeat split.
Qed.

(** C1, amended: when a backend response received in the loop has stop
    reason [tool_use] and no tool-use block, the loop is left without
    advancing the round counter (the tracker is unchanged and no tool is
    executed) and without returning that response as a direct answer;
    the assistant message alone is appended to the message list, exactly
    one more backend call is made, the final call without tools, and what
    [content[0].text] of its answer evaluates to is the result. *)
Theorem empty_tool_round_goes_to_final_call (Params ToolDef World : Type)
    (SYSTEM_PROMPT : string) (self : AIGenerator Params ToolDef World)
    (query : string) (conversation_history : option string)
    (available_tools : option (list ToolDef))
    (tool_manager : option (ToolManager Params World))
    (max_tool_rounds : Z) (w : World)
    (transcript : list (Message Params)) (st : St Params ToolDef World)
    (response : Response Params) (w1 : World) :
  reachable_head self
    (build_system_content SYSTEM_PROMPT conversation_history)
    available_tools tool_manager query max_tool_rounds w transcript st ->
  ToolCallState.can_make_more_calls (tool_state st) = true ->
  client self
    (api_params self transcript
       (build_system_content SYSTEM_PROMPT conversation_history)
       available_tools tool_manager) (world st) = (Ok response, w1) ->
  stop_reason response = "tool_use"%string ->
  filter is_tool_use (content response) = [] ->
  exists res w',
    client self
      (final_params self
         (transcript ++ [ {| role := assistant;
                             message_content := Blocks (content response) |} ])
         (build_system_content SYSTEM_PROMPT conversation_history)) w1
      = (res, w') /\
    generate_response SYSTEM_PROMPT self query conversation_history
      available_tools tool_manager max_tool_rounds w
      = (text_of res,
         {| world := w';
            tool_state := tool_state st;
            log := log st ++
              [BackendCall in_loop
                 (api_params self transcript
                    (build_system_content SYSTEM_PROMPT conversation_history)
                    available_tools tool_manager)
                 (Ok response);
               BackendCall final_call
                 (final_params self
                    (transcript ++
                       [ {| role := assistant;
                            message_content := Blocks (content response) |} ])
                    (build_system_content SYSTEM_PROMPT conversation_history))
                 res] |}).
Proof.
  intros Hhead Hc Hcall Hstop Hnone.
  assert (Hids : tool_use_ids (content response) = []).
  { pose proof (tool_use_ids_length (content response)) as Hl.
    rewrite Hnone in Hl. destruct (tool_use_ids (content response));
      [reflexivity | discriminate]. }
  unfold generate_response.
  rewrite (while_loop_at_head _ _ _ _ _ _ _ _ Hhead),
    (while_loop_step _ _ _ _ _ _ Hc).
  unfold loop_body, bind, messages_create. rewrite Hcall.
  apply String.eqb_eq in Hstop. rewrite Hstop.
  unfold _execute_tool_round, bind.
  rewrite (for_content_blocks_no_tool_use _ _ Hids). cbn.
  match goal with
  | |- context [_make_final_response ?g ?m ?sc ?s] =>
      destruct (final_response_state g sc m s) as (res & w' & Hfc & Hfin);
      rewrite Hfin
  end.
  exists res, w'. cbn in Hfc. split; [exact Hfc|].
  cbn. rewrite <- app_assoc. reflexivity.
Qed.

Lemma empty_tool_round_goes_to_final_call_witness :
  exists res w',
    generate_response Examples.prompt Examples.generator "What is a loop?"
      None Examples.offered (Some Examples.registry) 2 Examples.inconsistent
      = (text_of res,
         {| world := w';
            tool_state := ToolCallState.init 2;
            log :=
              [BackendCall in_loop
                 (api_params Examples.generator Examples.seed Examples.prompt
                    Examples.offered (Some Examples.registry))
                 (Examples.wants_tools [TextBlock "Let me look."]);
               BackendCall final_call
                 (final_params Examples.generator
                    (Examples.seed ++
                       [ {| role := assistant;
                            message_content := Blocks [TextBlock "Let me look."] |} ])
                    Examples.prompt)
                 res] |}).
Proof.
  destruct (empty_tool_round_goes_to_final_call Examples.Params
              Examples.ToolDef Examples.World Examples.prompt
              Examples.generator "What is a loop?" None Examples.offered
              (Some Examples.registry) 2 Examples.inconsistent Examples.seed
              (initial_state 2 Examples.inconsistent)
              {| stop_reason := "tool_use";
                 content := [TextBlock "Let me look."] |}
              [Examples.end_turn "Synthesis"])
    as (res & w' & _ & Hrun).
  - apply head_first.
  - reflexivity.
  - reflexivity.
  - reflexivity.
  - reflexivity.
  - exists res, w'. exact Hrun.
Defined.

(** ** The number of backend calls *)

(** C2, as stated, fails in its second half: with a ceiling of one round, a
    first response that asks for tools without any tool-use block leaves
    the loop and the final call is made, two backend calls in all, although
    the first round invoked no tool. *)
Lemma two_calls_without_a_tool_invocation :
  let st := snd (generate_response Examples.prompt Examples.generator
                   "What is a loop?" None Examples.offered
                   (Some Examples.registry) 1 Examples.inconsistent) in
  backend_calls (log st) = (Z.to_nat 1 + 1)%nat /\
  tools_per_call (log st) = [0%nat; 0%nat] /\
  ~ Forall (fun k => (1 <= k)%nat)
      (firstn (Z.to_nat 1) (tools_per_call (log st))).
Proof.
  vm_compute. repeat split.
  intros H. inversion H as [|k ks Hk _]. inversion Hk.
Qed.

(** C2, amended: for a ceiling [N >= 0], [generate_response] makes at most
    [N + 1] backend calls, and exactly [N + 1] only if every one of the
    first [N] responses asked for tools and every one of the first [N - 1]
    rounds executed at least one tool. *)
Theorem backend_calls_bounded (Params ToolDef World : Type)
    (SYSTEM_PROMPT : string) (self : AIGenerator Params ToolDef World)
    (query : string) (conversation_history : option string)
    (available_tools : option (list ToolDef))
    (tool_manager : option (ToolManager Params World))
    (max_tool_rounds : Z) (w : World) (out : Result string)
    (st : St Params ToolDef World) :
  0 <= max_tool_rounds ->
  generate_response SYSTEM_PROMPT self query conversation_history
    available_tools tool_manager max_tool_rounds w = (out, st) ->
  (backend_calls (log st) <= Z.to_nat max_tool_rounds + 1)%nat /\
  (backend_calls (log st) = (Z.to_nat max_tool_rounds + 1)%nat ->
   Forall requested_tools
     (firstn (Z.to_nat max_tool_rounds) (backend_responses (log st))) /\
   Forall (fun k => (1 <= k)%nat)
     (firstn (Z.to_nat max_tool_rounds - 1) (tools_per_call (log st)))).
Proof.
  intros HN Hrun. unfold generate_response in Hrun.
  apply run_shape in Hrun.
  destruct Hrun as (m & sth & tail & recs & Hh & Hexit & Hlog & _).
  apply head_facts in Hh. destruct Hh as (Hl & Hmax & Hcur & Hle & _).
  apply rounds_log_facts in Hl.
  destruct Hl as (_ & Hn & Hpos & Hrn & Hreq & _).
  rewrite Hlog, backend_calls_app, backend_responses_app.
  assert (Hcan : ToolCallState.can_make_more_calls (tool_state sth) = true ->
                 (backend_calls (log sth) < Z.to_nat max_tool_rounds)%nat).
  { unfold ToolCallState.can_make_more_calls. intros H. apply Z.ltb_lt in H. lia. }
  assert (Hcannot : ToolCallState.can_make_more_calls (tool_state sth) = false ->
                    backend_calls (log sth) = Z.to_nat max_tool_rounds).
  { unfold ToolCallState.can_make_more_calls. intros H. apply Z.ltb_ge in H. lia. }
  clear Hmax Hcur Hle.
  inversion Hexit as
    [ res Hc | e Hc | r Hc Hstop | r res Hc Hstop Hids
    | r Hc Hstop Hids Hnone | r evs name input e Hc Hstop Hok ]; subst;
    rewrite ?tools_per_call_before_backend;
    cbn [backend_calls];
    try rewrite (backend_calls_app evs),
      (backend_calls_tool_calls evs Hok); cbn [backend_calls];
    try specialize (Hcan Hc); try specialize (Hcannot Hc);
    (split; [lia|]); intros Htotal; try lia.
  - split; apply Forall_firstn_app; try assumption.
    + rewrite Hrn, Hcannot, Nat.sub_diag. constructor.
    + replace (Z.to_nat max_tool_rounds - 1 - List.length (tools_per_call (log sth)))%nat
        with 0%nat by lia. constructor.
  - split; apply Forall_firstn_app; try assumption.
    + replace (Z.to_nat max_tool_rounds - List.length (backend_responses (log sth)))%nat
        with 1%nat by lia. cbn. constructor; [exact Hstop|constructor].
    + replace (Z.to_nat max_tool_rounds - 1 - List.length (tools_per_call (log sth)))%nat
        with 0%nat by lia. constructor.
Qed.

Lemma backend_calls_bounded_witness :
  0 <= 1 /\
  (backend_calls
     (log (snd (generate_response Examples.prompt Examples.generator
                  "What is a loop?" None Examples.offered
                  (Some Examples.registry) 1 Examples.one_round)))
   <= Z.to_nat 1 + 1)%nat.
Proof.
  split; [lia|].
  refine (proj1 (backend_calls_bounded Examples.Params Examples.ToolDef
                   Examples.World Examples.prompt Examples.generator
                   "What is a loop?" None Examples.offered
                   (Some Examples.registry) 1 Examples.one_round
                   (fst (generate_response Examples.prompt Examples.generator
                           "What is a loop?" None Examples.offered
                           (Some Examples.registry) 1 Examples.one_round))
                   _ _ _)).
  - lia.
  - vm_compute. reflexivity.
Defined.

(** ** A tool that raises *)

(** C4. When an execution of a tool raises, the exception is the result of
    [generate_response]; the failed execution is the last thing the run
    did, so that no later tool-use block of the round is executed and no
    backend call follows, in particular no final one; and the tracker's
    [tool_calls_made] holds one record for each execution that returned
    and none for the failed one. *)
Theorem tool_failure_propagates (Params ToolDef World : Type)
    (SYSTEM_PROMPT : string) (self : AIGenerator Params ToolDef World)
    (query : string) (conversation_history : option string)
    (available_tools : option (list ToolDef))
    (tool_manager : option (ToolManager Params World))
    (max_tool_rounds : Z) (w : World) (out : Result string)
    (st : St Params ToolDef World)
    (name : string) (input : Params) (e : Exn) :
  generate_response SYSTEM_PROMPT self query conversation_history
    available_tools tool_manager max_tool_rounds w = (out, st) ->
  In (ToolCall name input (Err e)) (log st) ->
  out = Err e /\
  exists before,
    log st = before ++ [ToolCall name input (Err e)] /\
    (forall name' input' e', ~ In (ToolCall name' input' (Err e')) before) /\
    (forall rq rs, ~ In (BackendCall final_call rq rs) (log st)) /\
    map call_key (ToolCallState.tool_calls_made (tool_state st))
      = executed before /\
    List.length (ToolCallState.tool_calls_made (tool_state st))
      = List.length (executed (log st)).
Proof.
  intros Hrun Hin. unfold generate_response in Hrun.
  apply run_shape in Hrun.
  destruct Hrun as (m & sth & tail & recs & Hh & Hexit & Hlog & _ & _ & Hrec).
  apply head_facts in Hh. destruct Hh as (Hl & _ & _ & _ & Hrech).
  apply rounds_log_facts in Hl.
  destruct Hl as (_ & _ & _ & _ & _ & Hnoerr & Hsite).
  rewrite Hlog in Hin. apply in_app_or in Hin.
  destruct Hin as [Hin | Hin]; [exfalso; exact (Hnoerr _ _ _ Hin)|].
  inversion Hexit as
    [ res Hc | e0 Hc | r Hc Hstop | r res Hc Hstop Hids
    | r Hc Hstop Hids Hnone | r evs name0 input0 e0 Hc Hstop Hok ]; subst;
    try (destruct Hin as [Hin|Hin]; [discriminate|]);
    try (destruct Hin as [Hin|Hin]; [discriminate|]);
    try contradiction.
  apply in_app_or in Hin. destruct Hin as [Hin | [Hin | []]].
  { rewrite Forall_forall in Hok. destruct (Hok _ Hin). }
  inversion Hin; subst name0 input0 e0.
  split; [reflexivity|].
  exists (log sth ++ BackendCall in_loop
            (api_params self m (build_system_content SYSTEM_PROMPT conversation_history)
               available_tools tool_manager) (Ok r) :: evs).
  assert (Hex : executed (log sth ++ BackendCall in_loop
                  (api_params self m
                     (build_system_content SYSTEM_PROMPT conversation_history)
                     available_tools tool_manager) (Ok r) :: evs)
                = executed (log sth) ++ executed evs).
  { rewrite executed_app. reflexivity. }
  repeat split.
  - rewrite Hlog, <- app_assoc. reflexivity.
  - intros n' i' e' H. apply in_app_or in H. destruct H as [H | [H | H]].
    + exact (Hnoerr _ _ _ H).
    + discriminate.
    + rewrite Forall_forall in Hok. exact (Hok _ H).
  - intros rq rs H. rewrite Hlog in H. apply in_app_or in H.
    destruct H as [H | [H | H]].
    + apply Hsite in H. discriminate.
    + discriminate.
    + exact (failed_round_no_backend_call evs name input e Hok _ _ _ H).
  - rewrite Hrec, Hrech, Hex. reflexivity.
  - rewrite <- (length_map call_key), Hrec, Hrech, Hlog, executed_app.
    cbn [executed]. rewrite executed_app. cbn [executed].
    rewrite app_nil_r. reflexivity.
Qed.

Lemma tool_failure_propagates_witness :
  let run := generate_response Examples.prompt Examples.generator
               "What is a loop?" None Examples.offered
               (Some Examples.registry) 2 Examples.failing_round in
  In (ToolCall "failing_tool" [] (Err (Raised "Tool error"))) (log (snd run)) /\
  fst run = Err (Raised "Tool error") /\
  ToolCallState.tool_calls_made (tool_state (snd run)) = [].
Proof.
  cbv zeta.
  assert (Hin : In (ToolCall "failing_tool" [] (Err (Raised "Tool error")))
                  (log (snd (generate_response Examples.prompt
                               Examples.generator "What is a loop?" None
                               Examples.offered (Some Examples.registry) 2
                               Examples.failing_round))))
    by (vm_compute; right; left; reflexivity).
  split; [exact Hin|].
  destruct (tool_failure_propagates Examples.Params Examples.ToolDef
              Examples.World Examples.prompt Examples.generator
              "What is a loop?" None Examples.offered
              (Some Examples.registry) 2 Examples.failing_round
              _ _ "failing_tool"%string [] (Raised "Tool error")
              (surjective_pairing _) Hin)
    as (Hout & before & _ & _ & _ & _ & Hlen).
  split; [exact Hout|].
  destruct (ToolCallState.tool_calls_made _) eqn:E in Hlen |- *;
    [reflexivity|].
  vm_compute in Hlen. discriminate.
Defined.

Lemma loop_request_contents_witness :
  let run := generate_response Examples.prompt Examples.generator
               "What is a loop?" None Examples.offered
               (Some Examples.registry) 2 Examples.one_round in
  let req := api_params Examples.generator Examples.second_head_messages
               Examples.prompt Examples.offered (Some Examples.registry) in
  log (snd run)
    = firstn 2 (log (snd run))
        ++ BackendCall in_loop req (Examples.end_turn "A loop repeats.") :: [] /\
  temperature req = 0 /\
  max_tokens req = 800 /\
  system req = Examples.prompt /\
  messages req = spec_transcript "What is a loop?" (firstn 2 (log (snd run))) /\
  tools req = Examples.offered /\
  tool_choice req = Some {| choice_type := "auto" |}.
Proof.
  cbv zeta.
  assert (Hlog :
    log (snd (generate_response Examples.prompt
                (AIGenerator_init Examples.scripted "claude")
                "What is a loop?" None Examples.offered
                (Some Examples.registry) 2 Examples.one_round))
    = firstn 2
        (log (snd (generate_response Examples.prompt Examples.generator
                     "What is a loop?" None Examples.offered
                     (Some Examples.registry) 2 Examples.one_round)))
        ++ BackendCall in_loop
             (api_params Examples.generator Examples.second_head_messages
                Examples.prompt Examples.offered (Some Examples.registry))
             (Examples.end_turn "A loop repeats.") :: [])
    by (vm_compute; reflexivity).
  split; [exact Hlog|].
  destruct (loop_request_contents Examples.Params Examples.ToolDef
              Examples.World Examples.prompt Examples.scripted "claude"
              "What is a loop?" None Examples.offered
              (Some Examples.registry) 2 Examples.one_round _ _ _ _ _ _
              (surjective_pairing _) Hlog)
    as (Ht & Hmt & _ & Hsys & _ & _ & Hm & Htools & _).
  cbn in Htools. destruct Htools as [Htl Htc].
  repeat split; assumption.
Defined.

Lemma no_tools_offered_without_both_witness :
  let run := generate_response Examples.prompt Examples.generator
               "What is Python?" None Examples.offered None 2
               [Examples.end_turn "A language."] in
  let req := api_params Examples.generator
               (initial_messages "What is Python?") Examples.prompt
               Examples.offered None in
  In (BackendCall in_loop req (Examples.end_turn "A language.")) (log (snd run)) /\
  tools req = None /\
  tool_choice req = None.
Proof.
  cbv zeta.
  assert (Hin :
    In (BackendCall in_loop
          (api_params Examples.generator (initial_messages "What is Python?")
             Examples.prompt Examples.offered None)
          (Examples.end_turn "A language."))
       (log (snd (generate_response Examples.prompt Examples.generator
                    "What is Python?" None Examples.offered None 2
                    [Examples.end_turn "A language."]))))
    by (vm_compute; left; reflexivity).
  split; [exact Hin|].
  destruct (no_tools_offered_without_both Examples.Params Examples.ToolDef
              Examples.World Examples.prompt Examples.generator
              "What is Python?" None Examples.offered None 2
              [Examples.end_turn "A language."] _ _ _ _
              (surjective_pairing _) (or_introl eq_refl) Hin)
    as (Ht & Hc & _).
  split; assumption.
Defined.

(** * Further properties of the code *)

(** ** The tracker over several rounds *)

(** X1. Calling [increment_round] [k] times moves [current_round] up by
    exactly [k] and touches neither the ceiling nor the recorded calls;
    starting from a fresh tracker, more calls can be made afterwards
    exactly when [k] is below the ceiling. *)
Theorem increment_round_iterated (Params : Type)
    (ts : ToolCallState.t Params) (max_rounds : Z) (k : nat) :
  ToolCallState.current_round (Nat.iter k ToolCallState.increment_round ts)
    = ToolCallState.current_round ts + Z.of_nat k /\
  ToolCallState.max_rounds (Nat.iter k ToolCallState.increment_round ts)
    = ToolCallState.max_rounds ts /\
  ToolCallState.tool_calls_made (Nat.iter k ToolCallState.increment_round ts)
    = ToolCallState.tool_calls_made ts /\
  (ToolCallState.can_make_more_calls
     (Nat.iter k ToolCallState.increment_round
        (ToolCallState.init (Params := Params) max_rounds)) = true
   <-> Z.of_nat k < max_rounds).
Proof.
  assert (H : forall t : ToolCallState.t Params,
            ToolCallState.current_round
              (Nat.iter k ToolCallState.increment_round t)
              = ToolCallState.current_round t + Z.of_nat k /\
            ToolCallState.max_rounds
              (Nat.iter k ToolCallState.increment_round t)
              = ToolCallState.max_rounds t /\
            ToolCallState.tool_calls_made
              (Nat.iter k ToolCallState.increment_round t)
              = ToolCallState.tool_calls_made t).
  { induction k as [|k IH]; intros t.
    - cbn. repeat split. lia.
    - destruct (IH t) as (Hc & Hm & Hr).
      change (Nat.iter (S k) ToolCallState.increment_round t)
        with (ToolCallState.increment_round
                (Nat.iter k ToolCallState.increment_round t)).
      cbn [ToolCallState.increment_round ToolCallState.current_round
           ToolCallState.max_rounds ToolCallState.tool_calls_made].
      repeat split; [lia | exact Hm | exact Hr]. }
  destruct (H ts) as (Hc & Hm & Hr).
  split; [exact Hc|]. split; [exact Hm|]. split; [exact Hr|].
  destruct (H (ToolCallState.init max_rounds)) as (Hc' & Hm' & _).
  unfold ToolCallState.can_make_more_calls. rewrite Hc', Hm'. cbn.
  rewrite Z.ltb_lt. reflexivity.
Qed.

(** ** One round of tool executions *)

(** X2. [_execute_tool_round] executes the tool-use blocks of the response
    one after the other in the order of the blocks, each with the name and
    the input of its block, and does nothing else to the outside world:
    what it adds to the log are tool executions whose names and inputs are
    an initial part of those of the blocks, and all of them, every one
    returned, when the round returns. *)
Theorem tool_round_executes_blocks_in_order (Params ToolDef World : Type)
    (response : Response Params) (transcript : list (Message Params))
    (tool_manager : option (ToolManager Params World))
    (st st' : St Params ToolDef World)
    (r : Result (list (Message Params) * bool)) :
  _execute_tool_round response transcript tool_manager st = (r, st') ->
  exists evs rest,
    log st' = log st ++ evs /\
    (forall s rq rs, ~ In (BackendCall s rq rs) evs) /\
    tool_uses (content response) = invocations evs ++ rest /\
    (forall v, r = Ok v -> rest = [] /\ Forall ok_tool_call evs).
Proof.
  unfold _execute_tool_round, bind.
  destruct (for_content_blocks tool_manager (content response) [] false st)
    as [[[trs te]|e] st1] eqn:E; intros H; inversion H; subst;
    destruct (for_content_blocks_invocations _ _ _ _ _ _ _ E)
      as (evs & rest & Hlog & Hno & Huses & Hok).
  - exists evs, rest. repeat split; try assumption.
    + exact (Hok _ eq_refl).
    + apply for_content_blocks_spec in E.
      destruct E as (evs' & Hok' & _ & Hlog' & _).
      rewrite Hlog in Hlog'. apply app_inv_head in Hlog'. now subst evs'.
  - exists evs, rest. repeat split; try assumption.
    + discriminate.
    + discriminate.
Qed.

Lemma tool_round_executes_blocks_in_order_witness :
  exists evs,
    log (snd (_execute_tool_round Examples.two_tools Examples.seed
                (Some Examples.registry) (Examples.fresh []))) = evs /\
    invocations evs
      = [("search_course_content", [("query", "loops")]);
         ("get_course_outline", [("title", "MCP")])]%string.
Proof.
  destruct (tool_round_executes_blocks_in_order Examples.Params
              Examples.ToolDef Examples.World Examples.two_tools Examples.seed
              (Some Examples.registry) (Examples.fresh []) _ _
              (surjective_pairing _))
    as (evs & rest & Hlog & _ & Huses & Hok).
  exists evs. split; [exact Hlog|].
  destruct (Hok (Examples.after_two_tools, true)) as [-> _].
  - vm_compute. reflexivity.
  - rewrite app_nil_r in Huses. symmetry. exact Huses.
Defined.

(** X3. A response without any tool-use block, an empty one included,
    makes [_execute_tool_round] append the assistant message alone and
    report that no tool was executed; the outside world, the tracker and
    the log are left as they were, with or without a tool manager. *)
Theorem tool_round_without_tool_use (Params ToolDef World : Type)
    (response : Response Params) (transcript : list (Message Params))
    (tool_manager : option (ToolManager Params World))
    (st : St Params ToolDef World) :
  filter is_tool_use (content response) = [] ->
  _execute_tool_round response transcript tool_manager st
    = (Ok (transcript ++ [ {| role := assistant;
                              message_content := Blocks (content response) |} ],
           false),
       st).
Proof.
  intros Hnone.
  assert (Hids : tool_use_ids (content response) = []).
  { pose proof (tool_use_ids_length (content response)) as Hl.
    rewrite Hnone in Hl. destruct (tool_use_ids (content response));
      [reflexivity | discriminate]. }
  unfold _execute_tool_round, bind.
  rewrite (for_content_blocks_no_tool_use _ _ Hids). reflexivity.
Qed.

Lemma tool_round_without_tool_use_witness :
  _execute_tool_round {| stop_reason := "tool_use"; content := [] |}
    Examples.seed (Some Examples.registry) (Examples.fresh [])
  = (Ok (Examples.seed ++ [ {| role := assistant; message_content := Blocks [] |} ],
         false),
     Examples.fresh []).
Proof.
  apply (tool_round_without_tool_use Examples.Params Examples.ToolDef
           Examples.World {| stop_reason := "tool_use"; content := [] |}).
  reflexivity.
Defined.

(** ** Runs without a round *)

(** X5. With a ceiling of zero or less the loop body is never entered:
    [generate_response] makes one backend call, the final one, whose
    request holds the query alone and neither a tool list nor a tool
    choice even when tools and a tool manager are supplied; no tool is
    executed, and what [content[0].text] of the answer evaluates to is
    the result. *)
Theorem no_round_allowed (Params ToolDef World : Type)
    (SYSTEM_PROMPT : string) (self : AIGenerator Params ToolDef World)
    (query : string) (conversation_history : option string)
    (available_tools : option (list ToolDef))
    (tool_manager : option (ToolManager Params World))
    (max_tool_rounds : Z) (w : World) :
  max_tool_rounds <= 0 ->
  exists req res w',
    client self req w = (res, w') /\
    generate_response SYSTEM_PROMPT self query conversation_history
      available_tools tool_manager max_tool_rounds w
      = (text_of res,
         {| world := w';
            tool_state := ToolCallState.init max_tool_rounds;
            log := [BackendCall final_call req res] |}) /\
    messages req = [ {| role := user; message_content := Text query |} ] /\
    system req = build_system_content SYSTEM_PROMPT conversation_history /\
    tools req = None /\
    tool_choice req = None.
Proof.
  intros HN. unfold generate_response.
  rewrite while_loop_exit
    by (unfold ToolCallState.can_make_more_calls; cbn; apply Z.ltb_ge; lia).
  destruct (final_response_state self
              (build_system_content SYSTEM_PROMPT conversation_history)
              (initial_messages query) (initial_state max_tool_rounds w))
    as (res & w' & Hcall & Hfin).
  rewrite Hfin. cbn in Hcall.
  exists (final_params self (initial_messages query)
            (build_system_content SYSTEM_PROMPT conversation_history)), res, w'.
  repeat split. exact Hcall.
Qed.

Lemma no_round_allowed_witness :
  0 <= 0 /\
  exists req,
    generate_response Examples.prompt Examples.generator "What is a loop?"
      None Examples.offered (Some Examples.registry) 0
      [Examples.end_turn "A loop repeats."]
    = (Ok "A loop repeats."%string,
       {| world := [];
          tool_state := ToolCallState.init 0;
          log := [BackendCall final_call req
                    (Examples.end_turn "A loop repeats.")] |}) /\
    tools req = None.
Proof.
  split; [lia|].
  destruct (no_round_allowed Examples.Params Examples.ToolDef Examples.World
              Examples.prompt Examples.generator "What is a loop?" None
              Examples.offered (Some Examples.registry) 0
              [Examples.end_turn "A loop repeats."])
    as (req & res & w' & Hcall & Hrun & _ & _ & Ht & _).
  - lia.
  - exists req. split; [|exact Ht].
    vm_compute in Hcall. inversion Hcall; subst res w'. exact Hrun.
Defined.

(** ** What every run does *)

(** X4. A backend call that raises ends the run: the exception is the
    result of [generate_response], the failed call is the last thing the
    run did (it is not retried and nothing is called after it), and no
    earlier backend call of the run had raised.  This holds for the calls
    made in the loop and for the final one. *)
Theorem backend_failure_propagates (Params ToolDef World : Type)
    (SYSTEM_PROMPT : string) (self : AIGenerator Params ToolDef World)
    (query : string) (conversation_history : option string)
    (available_tools : option (list ToolDef))
    (tool_manager : option (ToolManager Params World))
    (max_tool_rounds : Z) (w : World) (out : Result string)
    (st : St Params ToolDef World)
    (s : Site) (rq : Request Params ToolDef) (e : Exn) :
  generate_response SYSTEM_PROMPT self query conversation_history
    available_tools tool_manager max_tool_rounds w = (out, st) ->
  In (BackendCall s rq (Err e)) (log st) ->
  out = Err e /\
  exists before,
    log st = before ++ [BackendCall s rq (Err e)] /\
    (forall s' rq' e', ~ In (BackendCall s' rq' (Err e')) before).
Proof.
  intros Hrun Hin. unfold generate_response in Hrun.
  apply run_shape in Hrun.
  destruct Hrun as (m & sth & tail & recs & Hh & Hexit & Hlog & _).
  apply head_facts in Hh. destruct Hh as (Hl & _).
  pose proof (rounds_log_no_failed_call _ _ _ _ _ _ _ Hl) as Hnofail.
  rewrite Hlog in Hin |- *. apply in_app_or in Hin.
  destruct Hin as [Hin | Hin]; [exfalso; exact (Hnofail _ _ _ Hin)|].
  inversion Hexit as
    [ res Hc | e0 Hc | r Hc Hstop | r res Hc Hstop Hids
    | r Hc Hstop Hids Hnone | r evs name0 input0 e0 Hc Hstop Hok ]; subst.
  - destruct Hin as [Hin|[]]. inversion Hin; subst.
    split; [reflexivity|]. exists (log sth). split; [reflexivity | exact Hnofail].
  - destruct Hin as [Hin|[]]. inversion Hin; subst.
    split; [reflexivity|]. exists (log sth). split; [reflexivity | exact Hnofail].
  - destruct Hin as [Hin|[]]. discriminate.
  - destruct Hin as [Hin|[Hin|[]]]; [discriminate|]. inversion Hin; subst.
    split; [reflexivity|].
    eexists (log sth ++ [_]). split; [rewrite <- app_assoc; reflexivity|].
    intros s' rq' e' H. apply in_app_or in H. destruct H as [H|[H|[]]].
    + exact (Hnofail _ _ _ H).
    + discriminate.
  - destruct Hin as [Hin|[]]. discriminate.
  - destruct Hin as [Hin|Hin]; [discriminate|]. exfalso.
    exact (failed_round_no_backend_call evs name0 input0 e0 Hok _ _ _ Hin).
Qed.

Lemma backend_failure_propagates_witness :
  let run := generate_response Examples.prompt Examples.generator
               "What is a loop?" None Examples.offered
               (Some Examples.registry) 2
               [Examples.wants_tools [Examples.search "toolu_1"]] in
  fst run = Err (Raised "StopIteration") /\
  backend_calls (log (snd run)) = 2%nat.
Proof.
  cbv zeta.
  destruct (backend_failure_propagates Examples.Params Examples.ToolDef
              Examples.World Examples.prompt Examples.generator
              "What is a loop?" None Examples.offered
              (Some Examples.registry) 2
              [Examples.wants_tools [Examples.search "toolu_1"]] _ _
              in_loop
              (api_params Examples.generator Examples.second_head_messages
                 Examples.prompt Examples.offered (Some Examples.registry))
              (Raised "StopIteration")
              (surjective_pairing _))
    as (Hout & _).
  - vm_compute. right. right. left. reflexivity.
  - split; [exact Hout | vm_compute; reflexivity].
Defined.

(** X6. Whatever [generate_response] returns is the text of the first
    content block of the answer to the last backend call it made: a run
    that returns ends with a backend call that returned, and the result is
    the text block its content starts with.  The result of a tool is never
    returned as the answer. *)
Theorem answer_is_last_response_text (Params ToolDef World : Type)
    (SYSTEM_PROMPT : string) (self : AIGenerator Params ToolDef World)
    (query : string) (conversation_history : option string)
    (available_tools : option (list ToolDef))
    (tool_manager : option (ToolManager Params World))
    (max_tool_rounds : Z) (w : World) (answer : string)
    (st : St Params ToolDef World) :
  generate_response SYSTEM_PROMPT self query conversation_history
    available_tools tool_manager max_tool_rounds w = (Ok answer, st) ->
  exists before s rq r rest,
    log st = before ++ [BackendCall s rq (Ok r)] /\
    content r = TextBlock answer :: rest.
Proof.
  intros Hrun. unfold generate_response in Hrun.
  apply run_shape in Hrun.
  destruct Hrun as (m & sth & tail & recs & _ & Hexit & Hlog & _).
  assert (Htext : forall r : Response Params,
            first_text r = Ok answer ->
            exists rest, content r = TextBlock answer :: rest).
  { intros r. unfold first_text.
    destruct (content r) as [|[text|id name input] rest]; try discriminate.
    intros H; inversion H; subst. now exists rest. }
  rewrite Hlog.
  inversion Hexit as
    [ res Hc Hout | e0 Hc | r Hc Hstop Hout | r res Hc Hstop Hids Hout
    | r Hc Hstop Hids Hnone | r evs name0 input0 e0 Hc Hstop Hok ]; subst.
  - destruct res as [r|e]; [|discriminate]. destruct (Htext r Hout) as [rest Hr].
    exists (log sth), final_call; eexists; exists r, rest.
    split; [reflexivity | exact Hr].
  - destruct (Htext r Hout) as [rest Hr].
    exists (log sth), in_loop; eexists; exists r, rest.
    split; [reflexivity | exact Hr].
  - destruct res as [r'|e]; [|discriminate]. destruct (Htext r' Hout) as [rest Hr].
    eexists (log sth ++ [_]), final_call; eexists; exists r', rest.
    split; [rewrite <- app_assoc; reflexivity | exact Hr].
Qed.

Lemma answer_is_last_response_text_witness :
  exists before s rq r rest,
    log (snd (generate_response Examples.prompt Examples.generator
                "What is a loop?" None Examples.offered
                (Some Examples.registry) 2 Examples.one_round))
      = before ++ [BackendCall s rq (Ok r)] /\
    content r = TextBlock "A loop repeats." :: rest.
Proof.
  apply (answer_is_last_response_text Examples.Params Examples.ToolDef
           Examples.World Examples.prompt Examples.generator
           "What is a loop?" None Examples.offered (Some Examples.registry)
           2 Examples.one_round).
  vm_compute. reflexivity.
Defined.

(** X7. Without a tool manager no tool is ever executed: the log of the
    run holds no tool execution, the tracker ends as it started (no
    record, round 0), at most two backend calls are made, and a response
    received in the loop that asks for tools and holds a tool-use block
    makes the run raise [AttributeError], from the access to
    [tool_manager.execute_tool]. *)
Theorem no_tool_without_manager (Params ToolDef World : Type)
    (SYSTEM_PROMPT : string) (self : AIGenerator Params ToolDef World)
    (query : string) (conversation_history : option string)
    (available_tools : option (list ToolDef))
    (max_tool_rounds : Z) (w : World) (out : Result string)
    (st : St Params ToolDef World) :
  generate_response SYSTEM_PROMPT self query conversation_history
    available_tools None max_tool_rounds w = (out, st) ->
  (forall name input res, ~ In (ToolCall name input res) (log st)) /\
  tool_state st = ToolCallState.init max_tool_rounds /\
  (backend_calls (log st) <= 2)%nat /\
  (forall rq response,
     In (BackendCall in_loop rq (Ok response)) (log st) ->
     stop_reason response = "tool_use"%string ->
     filter is_tool_use (content response) <> [] ->
     out = Err AttributeError).
Proof.
  intros Hrun. unfold generate_response in Hrun.
  set (sys := build_system_content SYSTEM_PROMPT conversation_history) in *.
  assert (Hhead : forall m0 st0 m sth,
            loop_head self sys available_tools None m0 st0 m sth ->
            m = m0 /\ sth = st0).
  { intros m0 st0 m sth H.
    induction H as [|m1 st1 m' st' Hh IH Hc Hb]; [split; reflexivity|].
    destruct (loop_body_no_manager _ _ _ _ _ _ _ _ eq_refl Hb) as (_ & _ & Hno).
    now contradiction (Hno m'). }
  assert (Hids : forall response : Response Params,
            filter is_tool_use (content response) <> [] ->
            tool_use_ids (content response) <> []).
  { intros response Hne Hnil. apply Hne.
    pose proof (tool_use_ids_length (content response)) as Hl.
    rewrite Hnil in Hl. destruct (filter is_tool_use (content response));
      [reflexivity | discriminate]. }
  pose proof (while_loop_run_end self sys available_tools None
                (initial_messages query) (initial_state max_tool_rounds w))
    as Hend.
  rewrite Hrun in Hend.
  inversion Hend as
    [ m sth Hh Hc Heq | m sth m' st' Hh Hc Hb Heq
    | m sth text st' Hh Hc Hb Heq | m sth e st' Hh Hc Hb Heq ];
    destruct (Hhead _ _ _ _ Hh) as [-> ->].
  - destruct (final_response_state self sys (initial_messages query)
                (initial_state max_tool_rounds w)) as (res & w' & _ & Hfin).
    rewrite Hfin in Heq. inversion Heq; subst. cbn.
    repeat split; try lia.
    + intros n i r [H|[]]. discriminate.
    + intros rq response [H|[]]. discriminate.
  - destruct (loop_body_no_manager _ _ _ _ _ _ _ _ eq_refl Hb)
      as (Hts & (res & w1 & _ & Hlog & Hraise) & _).
    destruct (final_response_state self sys m' st') as (res' & w' & _ & Hfin).
    rewrite Hfin in Heq. inversion Heq; subst. cbn. rewrite Hlog, Hts. cbn.
    repeat split; try lia.
    + intros n i r [H|[H|[]]]; discriminate.
    + intros rq response [H|[H|[]]] Hstop Hne; [|discriminate].
      inversion H; subst.
      specialize (Hraise response eq_refl Hstop (Hids _ Hne)). discriminate.
  - destruct (loop_body_no_manager _ _ _ _ _ _ _ _ eq_refl Hb)
      as (Hts & (res & w1 & _ & Hlog & Hraise) & _).
    inversion Heq; subst. rewrite Hlog, Hts. cbn.
    repeat split; try lia.
    + intros n i r [H|[]]. discriminate.
    + intros rq response [H|[]] Hstop Hne. inversion H; subst.
      specialize (Hraise response eq_refl Hstop (Hids _ Hne)). discriminate.
  - destruct (loop_body_no_manager _ _ _ _ _ _ _ _ eq_refl Hb)
      as (Hts & (res & w1 & _ & Hlog & Hraise) & _).
    inversion Heq; subst. rewrite Hlog, Hts. cbn.
    repeat split; try lia.
    + intros n i r [H|[]]. discriminate.
    + intros rq response [H|[]] Hstop Hne. inversion H; subst.
      pose proof (Hraise response eq_refl Hstop (Hids _ Hne)) as He.
      inversion He. reflexivity.
Qed.

Lemma no_tool_without_manager_witness :
  let run := generate_response Examples.prompt Examples.generator
               "What is a loop?" None Examples.offered None 2
               Examples.one_round in
  fst run = Err AttributeError /\
  tool_state (snd run) = ToolCallState.init 2.
Proof.
  cbv zeta.
  destruct (no_tool_without_manager Examples.Params Examples.ToolDef
              Examples.World Examples.prompt Examples.generator
              "What is a loop?" None Examples.offered 2 Examples.one_round
              _ _ (surjective_pairing _))
    as (_ & Hts & _ & Hraise).
  split; [|exact Hts].
  apply (Hraise
           (api_params Examples.generator Examples.seed Examples.prompt
              Examples.offered None)
           {| stop_reason := "tool_use";
              content := [Examples.search "toolu_1"] |}).
  - vm_compute. left. reflexivity.
  - reflexivity.
  - cbn. discriminate.
Defined.

(** X8. The message list is append-only across the backend calls of a
    run: of any two backend calls, the request of the later one holds all
    the messages of the request of the earlier one, in the same order,
    followed by at least one more.  No request ever drops or rewrites a
    message sent before. *)
Theorem transcript_only_grows (Params ToolDef World : Type)
    (SYSTEM_PROMPT : string) (self : AIGenerator Params ToolDef World)
    (query : string) (conversation_history : option string)
    (available_tools : option (list ToolDef))
    (tool_manager : option (ToolManager Params World))
    (max_tool_rounds : Z) (w : World) (out : Result string)
    (st : St Params ToolDef World)
    (pre mid post : list (Event Params ToolDef)) (s1 s2 : Site)
    (rq1 rq2 : Request Params ToolDef) (rs1 rs2 : Result (Response Params)) :
  generate_response SYSTEM_PROMPT self query conversation_history
    available_tools tool_manager max_tool_rounds w = (out, st) ->
  log st = pre ++ BackendCall s1 rq1 rs1 :: mid ++ BackendCall s2 rq2 rs2 :: post ->
  exists more, more <> [] /\ messages rq2 = messages rq1 ++ more.
Proof.
  intros Hrun Hlog. unfold generate_response in Hrun.
  apply run_grows in Hrun.
  assert (E : log st = (pre ++ BackendCall s1 rq1 rs1 :: mid)
                         ++ BackendCall s2 rq2 rs2 :: post)
    by (rewrite Hlog, <- app_assoc; reflexivity).
  exact (Hrun _ _ _ _ _ E pre s1 rq1 rs1 mid eq_refl).
Qed.

Lemma transcript_only_grows_witness :
  exists more,
    more <> [] /\
    Examples.second_head_messages = Examples.seed ++ more.
Proof.
  destruct (transcript_only_grows Examples.Params Examples.ToolDef
              Examples.World Examples.prompt Examples.generator
              "What is a loop?" None Examples.offered (Some Examples.registry)
              2 Examples.one_round _ _
              [] [ToolCall "search_course_content" [("query", "loops")]
                    (Ok (Some "result of search_course_content"))]%string
              [] in_loop in_loop
              (api_params Examples.generator Examples.seed Examples.prompt
                 Examples.offered (Some Examples.registry))
              (api_params Examples.generator Examples.second_head_messages
                 Examples.prompt Examples.offered (Some Examples.registry))
              (Examples.wants_tools [Examples.search "toolu_1"])
              (Examples.end_turn "A loop repeats.")
              (surjective_pairing _))
    as (more & Hne & Hm).
  - vm_compute. reflexivity.
  - exists more. split; [exact Hne | exact Hm].
Defined.

(** X9. In every run the tracker's [tool_calls_made] mirrors the tool
    executions that returned: one record per such execution, in the order
    they were made, with the tool's name, its parameters and the length of
    its result.  An execution that raised leaves no record. *)
Theorem records_mirror_executions (Params ToolDef World : Type)
    (SYSTEM_PROMPT : string) (self : AIGenerator Params ToolDef World)
    (query : string) (conversation_history : option string)
    (available_tools : option (list ToolDef))
    (tool_manager : option (ToolManager Params World))
    (max_tool_rounds : Z) (w : World) (out : Result string)
    (st : St Params ToolDef World) :
  generate_response SYSTEM_PROMPT self query conversation_history
    available_tools tool_manager max_tool_rounds w = (out, st) ->
  map (fun rec => (ToolCallState.tool rec, ToolCallState.params rec,
                   ToolCallState.result_length rec))
    (ToolCallState.tool_calls_made (tool_state st))
  = executed (log st).
Proof.
  intros Hrun. unfold generate_response in Hrun.
  apply run_shape in Hrun.
  destruct Hrun as (m & sth & tail & recs & Hh & Hexit & Hlog & _ & _ & Hrec).
  apply head_facts in Hh. destruct Hh as (_ & _ & _ & _ & Hrech).
  change (map call_key (ToolCallState.tool_calls_made (tool_state st))
          = executed (log st)).
  rewrite Hrec, Hrech, Hlog, executed_app. f_equal.
  inversion Hexit; subst; cbn [executed]; try reflexivity.
  rewrite executed_app. cbn [executed]. rewrite app_nil_r. reflexivity.
Qed.

Lemma records_mirror_executions_witness :
  map (fun rec => (ToolCallState.tool rec, ToolCallState.params rec,
                   ToolCallState.result_length rec))
    (ToolCallState.tool_calls_made
       (tool_state
          (snd (generate_response Examples.prompt Examples.generator
                  "What is a loop?" None Examples.offered
                  (Some Examples.registry) 2 Examples.one_round))))
  = [("search_course_content", [("query", "loops")], 31)]%string.
Proof.
  rewrite (records_mirror_executions Examples.Params Examples.ToolDef
             Examples.World Examples.prompt Examples.generator
             "What is a loop?" None Examples.offered (Some Examples.registry)
             2 Examples.one_round _ _ (surjective_pairing _)).
  vm_compute. reflexivity.
Defined.

(** X10. The round number stored in every record of [tool_calls_made] is
    at least 0 and below the ceiling: no tool is ever executed, and
    recorded, in a round beyond the ceiling. *)
Theorem recorded_rounds_below_ceiling (Params ToolDef World : Type)
    (SYSTEM_PROMPT : string) (self : AIGenerator Params ToolDef World)
    (query : string) (conversation_history : option string)
    (available_tools : option (list ToolDef))
    (tool_manager : option (ToolManager Params World))
    (max_tool_rounds : Z) (w : World) (out : Result string)
    (st : St Params ToolDef World) :
  generate_response SYSTEM_PROMPT self query conversation_history
    available_tools tool_manager max_tool_rounds w = (out, st) ->
  Forall (fun rec => 0 <= ToolCallState.round rec < max_tool_rounds)
    (ToolCallState.tool_calls_made (tool_state st)).
Proof.
  intros Hrun. unfold generate_response in Hrun.
  exact (run_record_rounds _ _ _ _ _ _ _ _ _ Hrun).
Qed.

Lemma recorded_rounds_below_ceiling_witness :
  Forall (fun rec => 0 <= ToolCallState.round rec < 2)
    (ToolCallState.tool_calls_made
       (tool_state
          (snd (generate_response Examples.prompt Examples.generator
                  "What is a loop?" None Examples.offered
                  (Some Examples.registry) 2 Examples.one_round)))).
Proof.
  apply (recorded_rounds_below_ceiling Examples.Params Examples.ToolDef
           Examples.World Examples.prompt Examples.generator
           "What is a loop?" None Examples.offered (Some Examples.registry)
           2 Examples.one_round
           (fst (generate_response Examples.prompt Examples.generator
                   "What is a loop?" None Examples.offered
                   (Some Examples.registry) 2 Examples.one_round))).
  apply surjective_pairing.
Defined.

(** X12. All the backend requests of a run, those made in the loop and the
    final one alike, carry the same model, temperature and output ceiling,
    the ones of [base_params], and the same system text, the one built
    from the prior context at the start. *)
Theorem requests_share_parameters (Params ToolDef World : Type)
    (SYSTEM_PROMPT : string) (self : AIGenerator Params ToolDef World)
    (query : string) (conversation_history : option string)
    (available_tools : option (list ToolDef))
    (tool_manager : option (ToolManager Params World))
    (max_tool_rounds : Z) (w : World) (out : Result string)
    (st : St Params ToolDef World) (s : Site)
    (rq : Request Params ToolDef) (rs : Result (Response Params)) :
  generate_response SYSTEM_PROMPT self query conversation_history
    available_tools tool_manager max_tool_rounds w = (out, st) ->
  In (BackendCall s rq rs) (log st) ->
  req_model rq = bp_model (base_params self) /\
  temperature rq = bp_temperature (base_params self) /\
  max_tokens rq = bp_max_tokens (base_params self) /\
  system rq = build_system_content SYSTEM_PROMPT conversation_history.
Proof.
  intros Hrun Hin. unfold generate_response in Hrun.
  apply run_requests in Hrun.
  apply in_split in Hin. destruct Hin as (pre & post & Hlog).
  specialize (Hrun _ _ _ _ _ Hlog). destruct s; cbn in Hrun.
  - subst rq. unfold api_params.
    destruct (truthy_list available_tools && truthy_obj tool_manager);
      repeat split.
  - destruct Hrun as (m & ->). repeat split.
Qed.

Lemma requests_share_parameters_witness :
  In (BackendCall final_call
        (final_params Examples.generator Examples.second_head_messages
           Examples.prompt)
        (Examples.end_turn "A loop repeats."))
     (log (snd (generate_response Examples.prompt Examples.generator
                  "What is a loop?" None Examples.offered
                  (Some Examples.registry) 1 Examples.one_round))) /\
  temperature
    (final_params Examples.generator Examples.second_head_messages
       Examples.prompt) = 0 /\
  system
    (final_params Examples.generator Examples.second_head_messages
       Examples.prompt) = Examples.prompt.
Proof.
  assert (Hin :
    In (BackendCall final_call
          (final_params Examples.generator Examples.second_head_messages
             Examples.prompt)
          (Examples.end_turn "A loop repeats."))
       (log (snd (generate_response Examples.prompt Examples.generator
                    "What is a loop?" None Examples.offered
                    (Some Examples.registry) 1 Examples.one_round))))
    by (vm_compute; right; right; left; reflexivity).
  split; [exact Hin|].
  destruct (requests_share_parameters Examples.Params Examples.ToolDef
              Examples.World Examples.prompt Examples.generator
              "What is a loop?" None Examples.offered (Some Examples.registry)
              1 Examples.one_round _ _ _ _ _ (surjective_pairing _) Hin)
    as (_ & Ht & _ & Hs).
  split; [exact Ht | exact Hs].
Defined.

(** X15. Every run calls the backend at least once, whatever the ceiling,
    and the request of its first call holds exactly one message: the user
    message with the query as given. *)
Theorem first_request_is_the_query (Params ToolDef World : Type)
    (SYSTEM_PROMPT : string) (self : AIGenerator Params ToolDef World)
    (query : string) (conversation_history : option string)
    (available_tools : option (list ToolDef))
    (tool_manager : option (ToolManager Params World))
    (max_tool_rounds : Z) (w : World) (out : Result string)
    (st : St Params ToolDef World) :
  generate_response SYSTEM_PROMPT self query conversation_history
    available_tools tool_manager max_tool_rounds w = (out, st) ->
  exists s rq rs rest,
    log st = BackendCall s rq rs :: rest /\
    messages rq = [ {| role := user; message_content := Text query |} ] /\
    (1 <= backend_calls (log st))%nat.
Proof.
  intros Hrun. unfold generate_response in Hrun.
  apply run_shape in Hrun.
  destruct Hrun as (m & sth & tail & recs & Hh & Hexit & Hlog & _).
  apply head_facts in Hh. destruct Hh as (Hl & _).
  apply rounds_log_starts in Hl. rewrite Hlog.
  destruct Hl as [[-> ->] | (r0 & rest & ->)].
  - cbn [app].
    inversion Hexit; subst;
      eexists _, _, _, _;
      (split; [reflexivity|]);
      (split; [try apply messages_api_params; reflexivity | cbn; lia]).
  - eexists _, _, _, _. split; [cbn; reflexivity|].
    split; [apply messages_api_params | cbn; lia].
Qed.

Lemma first_request_is_the_query_witness :
  exists s rq rs rest,
    log (snd (generate_response Examples.prompt Examples.generator
                "What is a loop?" None Examples.offered
                (Some Examples.registry) 2 Examples.failing_round))
      = BackendCall s rq rs :: rest /\
    messages rq = [ {| role := user; message_content := Text "What is a loop?" |} ] /\
    (1 <= backend_calls
            (log (snd (generate_response Examples.prompt Examples.generator
                         "What is a loop?" None Examples.offered
                         (Some Examples.registry) 2 Examples.failing_round))))%nat.
Proof.
  apply (first_request_is_the_query Examples.Params Examples.ToolDef
           Examples.World Examples.prompt Examples.generator
           "What is a loop?" None Examples.offered (Some Examples.registry)
           2 Examples.failing_round
           (fst (generate_response Examples.prompt Examples.generator
                   "What is a loop?" None Examples.offered
                   (Some Examples.registry) 2 Examples.failing_round))).
  apply surjective_pairing.
Defined.

(** ** Runs that use every round *)

(** The events of a run in which the model asked for tools, with at least
    one tool-use block, at every call made in the loop, and in which no
    call raised. *)
Definition kept_going {Params ToolDef : Type} (e : Event Params ToolDef) : bool :=
  match e with
  | BackendCall in_loop _ (Ok r) =>
      String.eqb (stop_reason r) "tool_use"
      && negb (Nat.eqb (List.length (tool_use_ids (content r))) 0)
  | BackendCall in_loop _ (Err _) => false
  | BackendCall final_call _ _ => true
  | ToolCall _ _ (Ok _) => true
  | ToolCall _ _ (Err _) => false
  end.

(** X11. When a tool manager is given, the model asks for tools, with at
    least one tool-use block, at every call made in the loop, and no call
    in the loop raises, the run uses up the ceiling: it makes exactly
    [max_tool_rounds + 1] backend calls (one when the ceiling is
    negative), every round before the last call executed at least one
    tool, the round counter ends at the ceiling, the last call is the
    final one, without tools, and the text of its answer is the result. *)
Theorem ceiling_exhaustion (Params ToolDef World : Type)
    (SYSTEM_PROMPT : string) (self : AIGenerator Params ToolDef World)
    (query : string) (conversation_history : option string)
    (available_tools : option (list ToolDef))
    (tool_manager : ToolManager Params World)
    (max_tool_rounds : Z) (w : World) (out : Result string)
    (st : St Params ToolDef World) :
  generate_response SYSTEM_PROMPT self query conversation_history
    available_tools (Some tool_manager) max_tool_rounds w = (out, st) ->
  forallb kept_going (log st) = true ->
  backend_calls (log st) = (Z.to_nat max_tool_rounds + 1)%nat /\
  ToolCallState.current_round (tool_state st) = Z.max 0 max_tool_rounds /\
  exists before rq res,
    log st = before ++ [BackendCall final_call rq res] /\
    out = text_of res /\
    tools rq = None /\
    tool_choice rq = None /\
    List.length (tools_per_call before) = Z.to_nat max_tool_rounds /\
    Forall (fun k => (1 <= k)%nat) (tools_per_call before).
Proof.
  intros Hrun Hkept. unfold generate_response in Hrun.
  apply run_shape in Hrun.
  destruct Hrun as (m & sth & tail & recs & Hh & Hexit & Hlog & _ & Hcur' & _).
  apply head_facts in Hh. destruct Hh as (Hl & Hmax & Hcur & Hle & _).
  apply rounds_log_facts in Hl.
  destruct Hl as (_ & Hn & Hpos & _).
  rewrite Hlog, forallb_app in Hkept. apply andb_true_iff in Hkept.
  destruct Hkept as [_ Hkept].
  inversion Hexit as
    [ res Hc | e0 Hc | r Hc Hstop | r res Hc Hstop Hids
    | r Hc Hstop Hids Hnone | r evs name0 input0 e0 Hc Hstop Hok ]; subst tail;
    cbn [forallb kept_going] in Hkept.
  - unfold ToolCallState.can_make_more_calls in Hc. apply Z.ltb_ge in Hc.
    rewrite Hlog, backend_calls_app, Hcur'. cbn [backend_calls].
    split; [lia|]. split; [lia|].
    exists (log sth); eexists; exists res.
    repeat split; try assumption. lia.
  - discriminate.
  - apply String.eqb_neq in Hstop. rewrite Hstop in Hkept. discriminate.
  - rewrite Hids in Hkept. cbn in Hkept.
    rewrite andb_false_r in Hkept. discriminate.
  - discriminate.
  - rewrite forallb_app in Hkept. cbn in Hkept.
    rewrite !andb_false_r in Hkept. discriminate.
Qed.

Lemma ceiling_exhaustion_witness :
  let run := generate_response Examples.prompt Examples.generator
               "What is a loop?" None Examples.offered
               (Some Examples.registry) 2
               [Examples.wants_tools [Examples.search "toolu_1"];
                Examples.wants_tools [Examples.search "toolu_2"];
                Examples.end_turn "Both searches say so."] in
  forallb kept_going (log (snd run)) = true /\
  backend_calls (log (snd run)) = (Z.to_nat 2 + 1)%nat /\
  ToolCallState.current_round (tool_state (snd run)) = Z.max 0 2.
Proof.
  cbv zeta.
  assert (Hkept :
    forallb kept_going
      (log (snd (generate_response Examples.prompt Examples.generator
                   "What is a loop?" None Examples.offered
                   (Some Examples.registry) 2
                   [Examples.wants_tools [Examples.search "toolu_1"];
                    Examples.wants_tools [Examples.search "toolu_2"];
                    Examples.end_turn "Both searches say so."]))) = true)
    by (vm_compute; reflexivity).
  split; [exact Hkept|].
  destruct (ceiling_exhaustion Examples.Params Examples.ToolDef
              Examples.World Examples.prompt Examples.generator
              "What is a loop?" None Examples.offered Examples.registry
              2 [Examples.wants_tools [Examples.search "toolu_1"];
                 Examples.wants_tools [Examples.search "toolu_2"];
                 Examples.end_turn "Both searches say so."]
              _ _ (surjective_pairing _) Hkept)
    as (Hcalls & Hcur & _).
  split; [exact Hcalls | exact Hcur].
Defined.

(** X13. The round counter never runs ahead of the tool calls: in the state
    in which a run ends, [current_round] is at most the number of records
    in [tool_calls_made].  A round counts only when a tool ran in it. *)
Theorem rounds_at_most_recorded_calls (Params ToolDef World : Type)
    (SYSTEM_PROMPT : string) (self : AIGenerator Params ToolDef World)
    (query : string) (conversation_history : option string)
    (available_tools : option (list ToolDef))
    (tool_manager : option (ToolManager Params World))
    (max_tool_rounds : Z) (w : World) (out : Result string)
    (st : St Params ToolDef World) :
  generate_response SYSTEM_PROMPT self query conversation_history
    available_tools tool_manager max_tool_rounds w = (out, st) ->
  ToolCallState.current_round (tool_state st)
    <= Z.of_nat (List.length (ToolCallState.tool_calls_made (tool_state st))).
Proof.
  intros Hrun. unfold generate_response in Hrun.
  apply run_shape in Hrun.
  destruct Hrun as (m & sth & tail & recs & Hh & _ & _ & _ & Hcur' & Hrec).
  apply head_facts in Hh. destruct Hh as (Hl & _ & Hcur & _ & Hrech).
  apply rounds_log_executed in Hl.
  apply (f_equal (@List.length _)) in Hrec.
  rewrite length_map, length_app, Hrech in Hrec. lia.
Qed.

Lemma rounds_at_most_recorded_calls_witness :
  ToolCallState.current_round
    (tool_state
       (snd (generate_response Examples.prompt Examples.generator
               "What is a loop?" None Examples.offered
               (Some Examples.registry) 2 Examples.one_round)))
  <= Z.of_nat
       (List.length
          (ToolCallState.tool_calls_made
             (tool_state
                (snd (generate_response Examples.prompt Examples.generator
                        "What is a loop?" None Examples.offered
                        (Some Examples.registry) 2 Examples.one_round))))).
Proof.
  apply (rounds_at_most_recorded_calls Examples.Params Examples.ToolDef
           Examples.World Examples.prompt Examples.generator
           "What is a loop?" None Examples.offered (Some Examples.registry)
           2 Examples.one_round
           (fst (generate_response Examples.prompt Examples.generator
                   "What is a loop?" None Examples.offered
                   (Some Examples.registry) 2 Examples.one_round))).
  apply surjective_pairing.
Defined.

(** ** Calls in the loop and after it *)

(** The number of backend calls of a log made in the loop, or after it. *)
Fixpoint calls_at {Params ToolDef : Type} (final : bool)
    (l : list (Event Params ToolDef)) : nat :=
  match l with
  | [] => 0
  | BackendCall in_loop _ _ :: rest =>
      ((if final then 0 else 1) + calls_at final rest)%nat
  | BackendCall final_call _ _ :: rest =>
      ((if final then 1 else 0) + calls_at final rest)%nat
  | ToolCall _ _ _ :: rest => calls_at final rest
  end.

Lemma calls_at_app {Params ToolDef : Type} (final : bool)
    (l l' : list (Event Params ToolDef)) :
  calls_at final (l ++ l') = (calls_at final l + calls_at final l')%nat.
Proof.
  induction l as [|[[|] rq rs|n i r] l IH]; cbn; rewrite ?IH; lia.
Qed.

Lemma calls_at_no_backend_call {Params ToolDef : Type} (final : bool)
    (l : list (Event Params ToolDef)) :
  no_backend_call l -> calls_at final l = 0%nat.
Proof.
  induction l as [|[s rq rs|n i r] l IH]; intros Hno.
  - reflexivity.
  - exfalso. apply (Hno s rq rs). now left.
  - cbn. apply IH. intros s rq rs Hin. apply (Hno s rq rs). now right.
Qed.

Lemma calls_at_in_loop_only {Params ToolDef : Type}
    (l : list (Event Params ToolDef)) :
  (forall s rq rs, In (BackendCall s rq rs) l -> s = in_loop) ->
  calls_at false l = backend_calls l /\ calls_at true l = 0%nat.
Proof.
  induction l as [|[s rq rs|n i r] l IH]; intros Hsite.
  - split; reflexivity.
  - rewrite (Hsite s rq rs) by now left.
    destruct IH as [IH1 IH2];
      [intros s' rq' rs' Hin; apply (Hsite s' rq' rs'); now right|].
    cbn. rewrite IH1, IH2. split; reflexivity.
  - cbn. apply IH. intros s' rq' rs' Hin. apply (Hsite s' rq' rs'). now right.
Qed.

(** X14. Tools are offered a bounded number of times: a run makes at most
    [max_tool_rounds] backend calls in the loop (none when the ceiling is
    zero or negative) and at most one final call. *)
Theorem calls_per_place_bounded (Params ToolDef World : Type)
    (SYSTEM_PROMPT : string) (self : AIGenerator Params ToolDef World)
    (query : string) (conversation_history : option string)
    (available_tools : option (list ToolDef))
    (tool_manager : option (ToolManager Params World))
    (max_tool_rounds : Z) (w : World) (out : Result string)
    (st : St Params ToolDef World) :
  generate_response SYSTEM_PROMPT self query conversation_history
    available_tools tool_manager max_tool_rounds w = (out, st) ->
  (calls_at false (log st) <= Z.to_nat max_tool_rounds)%nat /\
  (calls_at true (log st) <= 1)%nat.
Proof.
  intros Hrun. unfold generate_response in Hrun.
  apply run_shape in Hrun.
  destruct Hrun as (m & sth & tail & recs & Hh & Hexit & Hlog & _).
  apply head_facts in Hh. destruct Hh as (Hl & Hmax & Hcur & Hle & _).
  apply rounds_log_facts in Hl.
  destruct Hl as (_ & _ & _ & _ & _ & _ & Hsite).
  destruct (calls_at_in_loop_only _ Hsite) as [Hin Hfin].
  rewrite Hlog, !calls_at_app, Hin, Hfin.
  assert (Hcan : ToolCallState.can_make_more_calls (tool_state sth) = true ->
                 (backend_calls (log sth) < Z.to_nat max_tool_rounds)%nat).
  { unfold ToolCallState.can_make_more_calls. intros H. apply Z.ltb_lt in H. lia. }
  clear Hmax.
  inversion Hexit as
    [ res Hc | e0 Hc | r Hc Hstop | r res Hc Hstop Hids
    | r Hc Hstop Hids Hnone | r evs name0 input0 e0 Hc Hstop Hok ]; subst;
    try specialize (Hcan Hc); cbn [calls_at];
    try (rewrite !(calls_at_no_backend_call _
                     (evs ++ [ToolCall name0 input0 (Err e0)]))
           by (now apply failed_round_no_backend_call));
    lia.
Qed.

Lemma calls_per_place_bounded_witness :
  (calls_at false
     (log (snd (generate_response Examples.prompt Examples.generator
                  "What is a loop?" None Examples.offered
                  (Some Examples.registry) 1 Examples.one_round)))
   <= Z.to_nat 1)%nat.
Proof.
  refine (proj1 (calls_per_place_bounded Examples.Params Examples.ToolDef
                   Examples.World Examples.prompt Examples.generator
                   "What is a loop?" None Examples.offered
                   (Some Examples.registry) 1 Examples.one_round
                   (fst (generate_response Examples.prompt Examples.generator
                           "What is a loop?" None Examples.offered
                           (Some Examples.registry) 1 Examples.one_round))
                   _ _)).
  apply surjective_pairing.
Defined.
